(** * tablecloth: the Output render pipeline, mode negotiation and the
      virtual-keyboard client's registry binder

    A shallow embedding of [Output::render], [set_mode] and the [Output]
    constructor (output.cpp) and of [Client::bind_interfaces] (the
    cloth-kbd client), with the properties the design document states
    about them.

    Numbers.  [ws_alpha], the view opacity and the layout coordinates are
    C++ [float]/[double] values.  They are modelled by exact rationals
    ([Q]): every constant the code uses there (0, 0.1, 1) is a rational and
    the design document states its quantities (0.3, 0.7, +300, -700) as
    exact numbers.  Rounding of the binary formats is outside the model of
    [render].  The configured refresh rate, whose product with 1000 is cut
    to an integer, is a binary floating-point number and the product is
    rounded as the hardware does.  Integers ([int], [int32_t],
    [uint32_t]) are [Z]. *)

From Stdlib Require Import ZArith QArith List Bool String Lia Lqa.
From Stdlib Require SpecFloat.
Import ListNotations.

Local Open Scope Q_scope.

(** ** Comparisons on rationals, as the C++ operators *)

Definition Qlt_bool (a b : Q) : bool := negb (Qle_bool b a).

(** ** Data model *)

(** [View]: position, size, rotation and opacity (view.hpp is not among
    the sources; the fields are the ones [get_render_data] reads). *)
Record View := mkView {
  view_x : Q;
  view_y : Q;
  view_width : Z;
  view_height : Z;
  view_rotation : Q;
  view_alpha : Q
}.

(** [render::RenderData], as [get_render_data] fills it. *)
Record Layout := mkLayout {
  x : Q;
  y : Q;
  width : Q;
  height : Q;
  rotation : Q
}.

Record RenderData := mkRenderData {
  layout : Layout;
  alpha : Q
}.

(** A [Workspace*]: the address of a workspace owned by the desktop. *)
Definition ws_ptr := nat.

Record Workspace := mkWorkspace {
  index : Z;
  views : list View;
  fullscreen_view : option View
}.

(** What the render context is asked to do, in call order. *)
Inductive ContextCall :=
| DoRender (batch : list (View * RenderData)) (fullscreen : option View)
| DamageWhole.

(** [render::Context]: the batch under construction and the calls made on
    the renderer so far. *)
Record Context := mkContext {
  ctx_views : list (View * RenderData);
  ctx_fullscreen_view : option View;
  ctx_calls : list ContextCall
}.

(** [wlr::output_mode_t]: refresh is in mHz. *)
Record output_mode := mkMode {
  mode_width : Z;
  mode_height : Z;
  mode_refresh : Z
}.

(** The part of [wlr::output_t] the code reads. *)
Record wlr_output_t := mkWlrOutput {
  enabled : bool;
  out_width : Z;
  modes : list output_mode;   (* in [wl_list_for_each] order *)
  is_drm : bool               (* [wlr_output_is_drm] *)
}.

Record Output := mkOutput {
  wlr_output : wlr_output_t;
  workspace : ws_ptr;
  prev_workspace : option ws_ptr;
  ws_alpha : Q;
  context : Context
}.

(** ** get_render_data *)

Definition get_render_data (v : View) : RenderData :=
  {| layout := {| x := view_x v;
                  y := view_y v;
                  width := inject_Z (view_width v);
                  height := inject_Z (view_height v);
                  rotation := view_rotation v |};
     alpha := view_alpha v |}.

(** ** The render context's operations *)

(** Modelled from the spec: render.hpp/render.cpp are not among the
    sources.  [reset] "resets the render-data batch". *)
Definition reset (c : Context) : Context :=
  {| ctx_views := []; ctx_fullscreen_view := None; ctx_calls := ctx_calls c |}.

(** Modelled from the spec: [do_render] "hands the batch to the external
    renderer collaborator"; the hand-over is recorded with the batch as it
    stands at the call. *)
Definition do_render (c : Context) : Context :=
  {| ctx_views := ctx_views c;
     ctx_fullscreen_view := ctx_fullscreen_view c;
     ctx_calls := ctx_calls c ++ [DoRender (ctx_views c) (ctx_fullscreen_view c)] |}.

(** Modelled from the spec: [damage_whole] "marks the whole output area
    damaged". *)
Definition damage_whole (c : Context) : Context :=
  {| ctx_views := ctx_views c;
     ctx_fullscreen_view := ctx_fullscreen_view c;
     ctx_calls := ctx_calls c ++ [DamageWhole] |}.

(** [context.views.emplace_back(v, data)] for each element of a list. *)
Definition emplace_all (c : Context) (es : list (View * RenderData)) : Context :=
  {| ctx_views := ctx_views c ++ es;
     ctx_fullscreen_view := ctx_fullscreen_view c;
     ctx_calls := ctx_calls c |}.

Definition set_fullscreen (c : Context) (f : option View) : Context :=
  {| ctx_views := ctx_views c;
     ctx_fullscreen_view := f;
     ctx_calls := ctx_calls c |}.

(** ** Output::render *)

Definition is_some {A} (o : option A) : bool :=
  match o with Some _ => true | None => false end.

(** [prev_workspace == workspace] on pointers: a null [prev_workspace]
    never equals the (non-null) [workspace]. *)
Definition same_ws (prev : option ws_ptr) (w : ws_ptr) : bool :=
  match prev with Some p => Nat.eqb p w | None => false end.

(** Body of the first loop: the data appended for a view of the previous
    workspace. *)
Definition prev_entry (prev_ws_alpha dx : Q) (v : View) : View * RenderData :=
  let data := get_render_data v in
  (v, {| layout := {| x := x (layout data) - dx;
                      y := y (layout data);
                      width := width (layout data);
                      height := height (layout data);
                      rotation := rotation (layout data) |};
         alpha := alpha data * prev_ws_alpha |}).

(** Body of the second loop: the data appended for a view of the current
    workspace. *)
Definition cur_entry (ws_alpha dx : Q) (v : View) : View * RenderData :=
  let data := get_render_data v in
  (v, {| layout := {| x := x (layout data) + dx;
                      y := y (layout data);
                      width := width (layout data);
                      height := height (layout data);
                      rotation := rotation (layout data) |};
         alpha := alpha data * ws_alpha |}).

Section Render.

(** The desktop's workspaces, read through their addresses; [render]
    does not write to them. *)
Variable deref : ws_ptr -> Workspace.

(** [Workspace::visible_views] (workspace.cpp is not among the sources):
    the views of a workspace that are to be drawn. *)
Variable visible_views : Workspace -> list View.

(** Lines 34-38: restart on a fresh switch, advance by 0.1, clamp. *)
Definition restarts (o : Output) : bool :=
  negb (same_ws (prev_workspace o) (workspace o))
  && is_some (prev_workspace o)
  && Qle_bool 1 (ws_alpha o).

Definition advance (o : Output) : Q :=
  let a := if restarts o then 0 else ws_alpha o in
  let a := if Qle_bool a 1 then a + (1 # 10) else a in
  if Qlt_bool 1 a then 1 else a.

(** Line 40. *)
Definition bypass (o : Output) : bool :=
  same_ws (prev_workspace o) (workspace o)
  && is_some (fullscreen_view (deref (workspace o))).

(** Lines 43-53. *)
Definition append_prev (o : Output) (a : Q) (c : Context) : Context :=
  let prev_ws_alpha := 1 - a in
  match prev_workspace o with
  | Some p =>
      if Qlt_bool 0 prev_ws_alpha then
        let dx := inject_Z (out_width (wlr_output o)) * a in
        let dx := if (index (deref (workspace o)) <? index (deref p))%Z
                  then - dx else dx in
        emplace_all c (map (prev_entry prev_ws_alpha dx) (visible_views (deref p)))
      else c
  | None => c
  end.

(** Lines 55-57. *)
Definition finish_prev (o : Output) (a : Q) : option ws_ptr :=
  if Qle_bool 1 a then Some (workspace o) else prev_workspace o.

(** Lines 59-68; [prev] is [prev_workspace] as lines 55-57 left it. *)
Definition append_cur (o : Output) (a : Q) (prev : option ws_ptr) (c : Context)
  : Context :=
  if Qlt_bool 0 a then
    let dx := inject_Z (out_width (wlr_output o)) * (1 - a) in
    let dx := match prev with
              | Some p =>
                  if (index (deref (workspace o)) <? index (deref p))%Z
                  then - dx else dx
              | None => dx
              end in
    emplace_all c (map (cur_entry a dx) (visible_views (deref (workspace o))))
  else c.

Definition render (o : Output) : Output :=
  if negb (enabled (wlr_output o)) then o
  else
    let c := reset (context o) in
    let a := advance o in
    let '(prev, c) :=
      if bypass o then
        (prev_workspace o,
         set_fullscreen c (fullscreen_view (deref (workspace o))))
      else
        let c := append_prev o a c in
        let prev := finish_prev o a in
        (prev, append_cur o a prev c) in
    let c := do_render c in
    let c := if Qlt_bool a 1 then damage_whole c else c in
    {| wlr_output := wlr_output o;
       workspace := workspace o;
       prev_workspace := prev;
       ws_alpha := a;
       context := c |}.

End Render.

(** ** Workspace::visible_views *)

(** Modelled from the spec: [Workspace::visible_views] is not among the
    sources.  "Filtered to exclude views hidden by an active fullscreen
    view (if a fullscreen View is set, only it is visible)." *)
Definition visible_views_spec (w : Workspace) : list View :=
  match fullscreen_view w with
  | Some f => [f]
  | None => views w
  end.

(** ** Mode negotiation *)

(** A C++ floating-point value together with the format that holds it:
    [float] is binary32, [double] is binary64. *)
Inductive fp_format := binary32 | binary64.

Definition fp_prec (f : fp_format) : Z :=
  match f with binary32 => 24%Z | binary64 => 53%Z end.

Definition fp_emax (f : fp_format) : Z :=
  match f with binary32 => 128%Z | binary64 => 1024%Z end.

Record fp := mkFp {
  fp_format_of : fp_format;
  fp_bits : SpecFloat.spec_float
}.

(** An [int] converted to the format (rounded to nearest, ties to even). *)
Definition fp_of_int (f : fp_format) (n : Z) : fp :=
  mkFp f (SpecFloat.binary_normalize (fp_prec f) (fp_emax f) n 0 false).

(** [x * n] for a floating [x] and an [int] [n]: [n] is converted to the
    format of [x] and the product is rounded to that format. *)
Definition fp_mul_int (x : fp) (n : Z) : fp :=
  let f := fp_format_of x in
  mkFp f (SpecFloat.SFmul (fp_prec f) (fp_emax f) (fp_bits x)
            (fp_bits (fp_of_int f n))).

(** The number a finite floating-point value stands for; 0 for an
    infinity or a NaN. *)
Definition fp_value (x : fp) : Q :=
  match fp_bits x with
  | SpecFloat.S754_finite s m e =>
      let z := if s then Zneg m else Zpos m in
      match e with
      | Z0 => inject_Z z
      | Zpos p => inject_Z (z * Zpos (2 ^ p))
      | Zneg p => z # (2 ^ p)
      end
  | _ => 0
  end.

(** The fields of [Config::Output] the code reads (config.hpp is not among
    the sources; the refresh rate carries its format). *)
Record ConfigMode := mkConfigMode {
  cfg_width : Z;
  cfg_height : Z;
  refresh_rate : fp
}.

Record ConfigOutput := mkConfigOutput {
  enable : bool;
  mode : ConfigMode;
  cfg_modes : list output_mode;   (* custom modes, [mode.info] *)
  scale : Q;
  transform : Z;
  cfg_x : Z;
  cfg_y : Z
}.

(** What the constructor and [set_mode] ask of the backend and of the log,
    in call order. *)
Inductive BackendCall :=
| wlr_output_set_custom_mode (w h refresh : Z)
| wlr_output_set_mode (m : output_mode)
| wlr_drm_connector_add_mode (m : output_mode)
| wlr_output_set_scale (s : Q)
| wlr_output_set_transform (t : Z)
| wlr_output_layout_add (lx ly : Z)
| wlr_output_layout_add_auto
| wlr_output_enable (b : bool)
| arrange_layers
| context_damage_whole
| LOGE (msg : string)
| LOGD (msg : string).

(** [(int) q]: conversion of a floating value to [int] drops the
    fractional part (rounds toward zero).  Outside the range of [int], and
    for an infinity or a NaN, the C++ conversion is undefined; the model
    keeps the mathematical value of a finite number. *)
Definition to_int (q : Q) : Z := Z.quot (Qnum q) (Zpos (Qden q)).

(** Line 78: the floating product, rounded to its format, then cut to an
    [int]. *)
Definition config_mhz (oc : ConfigOutput) : Z :=
  to_int (fp_value (fp_mul_int (refresh_rate (mode oc)) 1000)).

(** Lines 89 and 90: the two tests of the loop body. *)
Definition size_matches (oc : ConfigOutput) (m : output_mode) : bool :=
  ((mode_width m =? cfg_width (mode oc)) && (mode_height m =? cfg_height (mode oc)))%Z.

Definition refresh_matches (mhz : Z) (m : output_mode) : bool :=
  (mode_refresh m =? mhz)%Z.

(** Lines 86-96: [wl_list_for_each] with [break]; [best] is threaded
    through the iterations. *)
Fixpoint scan_modes (oc : ConfigOutput) (mhz : Z) (ms : list output_mode)
  (best : option output_mode) : option output_mode :=
  match ms with
  | [] => best
  | m :: rest =>
      if size_matches oc m then
        if refresh_matches mhz m then Some m
        else scan_modes oc mhz rest (Some m)
      else scan_modes oc mhz rest best
  end.

Definition set_mode (output : wlr_output_t) (oc : ConfigOutput) : list BackendCall :=
  let mhz := config_mhz oc in
  match modes output with
  | [] =>
      [wlr_output_set_custom_mode (cfg_width (mode oc)) (cfg_height (mode oc)) mhz]
  | _ :: _ =>
      match scan_modes oc mhz (modes output) None with
      | None => [LOGE "Configured mode for {} not available"]
      | Some best =>
          [LOGD "Assigning configured mode to {}"; wlr_output_set_mode best]
      end
  end.

(** ** Mode negotiation, in the design document's words *)

Definition exact_match (oc : ConfigOutput) (mhz : Z) (m : output_mode) : bool :=
  size_matches oc m && refresh_matches mhz m.

(** The last element of a list, if any. *)
Definition last_of {A} (l : list A) : option A :=
  match rev l with
  | [] => None
  | a :: _ => Some a
  end.

(** "Scan advertised modes for a width/height match; prefer an exact
    refresh-rate match, else accept the last width/height match seen." *)
Definition negotiated_mode (oc : ConfigOutput) (mhz : Z) (ms : list output_mode)
  : option output_mode :=
  match find (exact_match oc mhz) ms with
  | Some m => Some m
  | None => last_of (filter (size_matches oc) ms)
  end.

(** ** Output::Output *)

(** Lines 114-117: [(&wlr_output.modes)->prev] is the last entry of the
    list. *)
Definition preferred_mode (wlr : wlr_output_t) : list BackendCall :=
  match modes wlr with
  | [] => []
  | m :: rest => [wlr_output_set_mode (last rest m)]
  end.

Section OutputCtor.

(** [wlr_drm_connector_add_mode] belongs to the backend library.  It is
    handed the output that [set_mode] scans afterwards; what it leaves of
    that output is a parameter. *)
Variable drm_connector_add_mode : wlr_output_t -> output_mode -> wlr_output_t.

(** Lines 137-145: the output after the loop, and the requests made. *)
Definition add_custom_modes (wlr : wlr_output_t) (oc : ConfigOutput)
  : wlr_output_t * list BackendCall :=
  if is_drm wlr then
    (fold_left drm_connector_add_mode (cfg_modes oc) wlr,
     map wlr_drm_connector_add_mode (cfg_modes oc))
  else
    (wlr,
     match cfg_modes oc with
     | [] => [LOGE "Can only add modes for DRM backend"]
     | _ :: _ => []
     end).

(** Lines 134-157. *)
Definition apply_config (wlr : wlr_output_t) (output_config : option ConfigOutput)
  : list BackendCall :=
  match output_config with
  | Some oc =>
      if enable oc then
        let '(wlr', added) := add_custom_modes wlr oc in
        added
        ++ (if negb (cfg_width (mode oc) =? 0)%Z then set_mode wlr' oc else [])
        ++ [wlr_output_set_scale (scale oc);
            wlr_output_set_transform (transform oc);
            wlr_output_layout_add (cfg_x oc) (cfg_y oc)]
      else [wlr_output_enable false]
  | None => [wlr_output_layout_add_auto]
  end.

(** The constructor's requests, in order.  [output_config] is the result of
    [desktop.config.get_output(wlr_output)].  The listener registrations
    (lines 119-132) issue no request and are left out. *)
Definition Output_ctor (wlr : wlr_output_t) (output_config : option ConfigOutput)
  : list BackendCall :=
  [LOGD "Output '{}' added"; LOGD "'{} {} {}' {}mm x {}mm"]
  ++ preferred_mode wlr
  ++ apply_config wlr output_config
  ++ [arrange_layers; context_damage_whole].

End OutputCtor.

(** The requests of a trace that choose the output's mode. *)
Definition is_mode_request (c : BackendCall) : bool :=
  match c with
  | wlr_output_set_mode _ | wlr_output_set_custom_mode _ _ _ => true
  | _ => false
  end.

Definition mode_requests (t : list BackendCall) : list BackendCall :=
  filter is_mode_request t.

(** ** cloth::kbd::Client::bind_interfaces *)

Inductive Proxy := VirtualKeyboardManager | LayerShell | Seat.

(** A bound proxy remembers the global it was bound to. *)
Record Bound := mkBound { global_name : N; bound_version : N }.

Record Client := mkClient {
  virtual_keyboard_manager : option Bound;
  layer_shell : option Bound;
  seat : option Bound;
  seat_on_name : bool   (* the [on_name] handler is installed *)
}.

Inductive RegistryCall :=
| registry_bind (name : N) (target : Proxy) (version : N).

Record Global := mkGlobal {
  g_name : N;
  g_interface : string;
  g_version : N
}.

Section Kbd.

(** The [interface_name] constants of the generated protocol wrappers,
    which are not among the sources. *)
Variables vkm_interface_name layer_shell_interface_name seat_interface_name : string.

(** Lines 10-20, the [on_global] handler (the debug log line is left
    out). *)
Definition on_global (c : Client) (g : Global) : Client * list RegistryCall :=
  let b := Some (mkBound (g_name g) (g_version g)) in
  if String.eqb (g_interface g) vkm_interface_name then
    (mkClient b (layer_shell c) (seat c) (seat_on_name c),
     [registry_bind (g_name g) VirtualKeyboardManager (g_version g)])
  else if String.eqb (g_interface g) layer_shell_interface_name then
    (mkClient (virtual_keyboard_manager c) b (seat c) (seat_on_name c),
     [registry_bind (g_name g) LayerShell (g_version g)])
  else if String.eqb (g_interface g) seat_interface_name then
    match seat c with
    | None =>
        (mkClient (virtual_keyboard_manager c) (layer_shell c) b true,
         [registry_bind (g_name g) Seat (g_version g)])
    | Some _ =>
        (mkClient (virtual_keyboard_manager c) (layer_shell c) (seat c) true, [])
    end
  else (c, []).

(** [bind_interfaces]: the handler runs once for each global announced
    during the two roundtrips, in announcement order. *)
Fixpoint bind_interfaces (c : Client) (gs : list Global) : Client * list RegistryCall :=
  match gs with
  | [] => (c, [])
  | g :: rest =>
      let '(c1, calls1) := on_global c g in
      let '(c2, calls2) := bind_interfaces c1 rest in
      (c2, calls1 ++ calls2)
  end.

End Kbd.

(** The number of bind requests a trace issues for one proxy. *)
Definition is_bind_of (p : Proxy) (c : RegistryCall) : bool :=
  match c, p with
  | registry_bind _ VirtualKeyboardManager _, VirtualKeyboardManager => true
  | registry_bind _ LayerShell _, LayerShell => true
  | registry_bind _ Seat _, Seat => true
  | _, _ => false
  end.

Definition binds_of (p : Proxy) (t : list RegistryCall) : nat :=
  List.length (filter (is_bind_of p) t).

(** ** Render data up to the value of its numbers *)

Definition same_data (d e : RenderData) : Prop :=
  x (layout d) == x (layout e)
  /\ y (layout d) == y (layout e)
  /\ width (layout d) == width (layout e)
  /\ height (layout d) == height (layout e)
  /\ rotation (layout d) == rotation (layout e)
  /\ alpha d == alpha e.

Definition same_entry (p q : View * RenderData) : Prop :=
  fst p = fst q /\ same_data (snd p) (snd q).

(** The data of view [v] with its opacity multiplied by [k] and its
    position moved by [off] along the horizontal axis. *)
Definition scaled_shifted (k off : Q) (v : View) : View * RenderData :=
  (v, mkRenderData
        (mkLayout (view_x v + off) (view_y v)
                  (inject_Z (view_width v)) (inject_Z (view_height v))
                  (view_rotation v))
        (view_alpha v * k)).

(** ** Concrete inputs *)

Definition view_a : View := mkView 10 20 640 480 0 1.
Definition view_b : View := mkView 0 0 800 600 0 1.
Definition view_c : View := mkView 300 40 200 100 0 (1 # 2).

(** Three workspaces at addresses 0, 1 and 2, with indices 0, 1 and 2. *)
Definition sample_deref (p : ws_ptr) : Workspace :=
  match p with
  | O => mkWorkspace 0 [view_a] None
  | S O => mkWorkspace 1 [view_b] (Some view_b)
  | _ => mkWorkspace 2 [view_b; view_c] None
  end.

Definition sample_wlr : wlr_output_t :=
  mkWlrOutput true 1000 [] false.

Definition empty_context : Context := mkContext [] None [].

(** Two frames into a switch from the workspace of index 2 to the one of
    index 0, on an output 1000 wide. *)
Definition switching_2_to_0 : Output :=
  mkOutput sample_wlr 0%nat (Some 2%nat) (2 # 10) empty_context.

(** An output settled on workspace 1, which has a fullscreen view. *)
Definition settled_fullscreen : Output :=
  mkOutput sample_wlr 1%nat (Some 1%nat) 1 empty_context.

(** Nine frames into a switch from workspace 2 to workspace 0. *)
Definition last_frame_2_to_0 : Output :=
  mkOutput sample_wlr 0%nat (Some 2%nat) (9 # 10) empty_context.

Definition mode_1080p60 : output_mode := mkMode 1920 1080 60000.
Definition mode_1080p144 : output_mode := mkMode 1920 1080 144000.
Definition mode_720p60 : output_mode := mkMode 1280 720 60000.

Definition two_mode_output : wlr_output_t :=
  mkWlrOutput true 1920 [mode_1080p60; mode_1080p144] false.

Definition config_1080p144 : ConfigOutput :=
  mkConfigOutput true (mkConfigMode 1920 1080 (fp_of_int binary32 144)) [] 1 0 0 0.

Definition config_1080p75 : ConfigOutput :=
  mkConfigOutput true (mkConfigMode 1920 1080 (fp_of_int binary32 75)) [] 1 0 0 0.

Definition config_800x600 : ConfigOutput :=
  mkConfigOutput true (mkConfigMode 800 600 (fp_of_int binary32 60)) [] 1 0 0 0.

(** The [float] nearest to 59.94, 15712911 / 2^18 = 59.93999862...; its
    exact product with 1000 is 59939.99862..., which rounds to the
    [float] 59940. *)
Definition float_59_94 : fp :=
  mkFp binary32 (SpecFloat.S754_finite false 15712911 (-18)).

Definition config_1080p_59_94 : ConfigOutput :=
  mkConfigOutput true (mkConfigMode 1920 1080 float_59_94) [] 1 0 0 0.

(** The [float]s nearest to 29.97 and 23.976 and the [double] nearest to
    59.94. *)
Definition float_29_97 : fp :=
  mkFp binary32 (SpecFloat.S754_finite false 15712911 (-19)).

Definition float_23_976 : fp :=
  mkFp binary32 (SpecFloat.S754_finite false 12570329 (-19)).

Definition double_59_94 : fp :=
  mkFp binary64 (SpecFloat.S754_finite false 8435805052018360 (-47)).

Definition config_at (rate : fp) : ConfigOutput :=
  mkConfigOutput true (mkConfigMode 1920 1080 rate) [] 1 0 0 0.

(** The [double] 59.9995 = 8444178932575502 / 2^47; its product with 1000
    is 59999.5, a [double]. *)
Definition double_59_9995 : fp :=
  mkFp binary64 (SpecFloat.S754_finite false 8444178932575502 (-47)).

Definition config_1080p_59_9995 : ConfigOutput :=
  mkConfigOutput true (mkConfigMode 1920 1080 double_59_9995) [] 1 0 0 0.

(** The backend's [wlr_drm_connector_add_mode] taken to put the new mode
    at the head of the output's mode list. *)
Definition add_mode_at_head (wlr : wlr_output_t) (m : output_mode) : wlr_output_t :=
  mkWlrOutput (enabled wlr) (out_width wlr) (m :: modes wlr) (is_drm wlr).

(** A DRM output that advertises 1280x720 only, configured with a custom
    1920x1080 mode at 75 Hz that is also the configured mode. *)
Definition mode_1080p75 : output_mode := mkMode 1920 1080 75000.

Definition drm_output_720 : wlr_output_t :=
  mkWlrOutput true 1280 [mode_720p60] true.

Definition config_custom_1080p75 : ConfigOutput :=
  mkConfigOutput true (mkConfigMode 1920 1080 (fp_of_int binary32 75))
    [mode_1080p75] 1 0 0 0.



Definition headless_output : wlr_output_t :=
  mkWlrOutput true 0 [] false.

Definition config_disabled_1080p60 : ConfigOutput :=
  mkConfigOutput false (mkConfigMode 1920 1080 (fp_of_int binary32 60)) [] 1 0 0 0.

Definition output_1080_then_720 : wlr_output_t :=
  mkWlrOutput true 1920 [mode_1080p60; mode_720p60] false.

(** The interface names of the Wayland protocols the client binds. *)
Definition vkm_name : string := "zwp_virtual_keyboard_manager_v1".
Definition layer_shell_name : string := "zwlr_layer_shell_v1".
Definition seat_name : string := "wl_seat".

Definition no_globals_bound : Client := mkClient None None None false.

(** ** cloth::kbd::Client::main *)

(** What [Client::main] does after the command line is parsed, in order. *)
Inductive MainStep :=
| main_log_error (msg : string)
| main_print_help
| main_bind (c : RegistryCall)
| main_create_keyboard          (* [VirtualKeyboard virtkbd{*this}] *)
| main_gtk_run.                 (* [gtk_main.run()] *)

Section KbdMain.

Variables vkm_interface_name layer_shell_interface_name seat_interface_name : string.

(** Lines 25-50.  [parse_ok] is the result of [cli.parse], [show_help] the
    flag it sets; [c] is the client before any global is bound and [gs]
    the globals announced during [bind_interfaces]. *)
Definition Client_main (parse_ok show_help : bool) (c : Client) (gs : list Global)
  : list MainStep * Z :=
  if negb parse_ok then ([main_log_error "Error in command line: {}"], 1%Z)
  else if show_help then ([main_print_help], 1%Z)
  else
    let '(c', calls) :=
      bind_interfaces vkm_interface_name layer_shell_interface_name
        seat_interface_name c gs in
    if negb (is_some (seat c'))
       || negb (is_some (virtual_keyboard_manager c'))
       || negb (is_some (layer_shell c'))
    then (map main_bind calls ++ [main_log_error "Interface not registered"], 1%Z)
    else (map main_bind calls ++ [main_create_keyboard; main_gtk_run], 0%Z).

End KbdMain.

(** Whether a global of the given interface is among the announced ones. *)
Definition announced (interface : string) (gs : list Global) : bool :=
  existsb (fun g => String.eqb (g_interface g) interface) gs.

Definition announcements_of (interface : string) (gs : list Global) : list Global :=
  filter (fun g => String.eqb (g_interface g) interface) gs.

Definition bound_to (g : Global) : Bound := mkBound (g_name g) (g_version g).

(** ** The desktop shell client (shell.cpp) *)

Inductive ShellProxy := DesktopShell | ShellOutput.

Inductive ShellStep :=
| shell_log_debug (msg : string)
| shell_log_error (msg : string)
| shell_bind (name : N) (target : ShellProxy) (version : N).

(** The members of [tablecloth::Desktop] the registry handler writes. *)
Record ShellDesktop := mkShellDesktop {
  sd_shell : option Bound;
  sd_output : option Bound;
  sd_shell_handlers : bool   (* [on_grab_cursor] and [on_configure] are set *)
}.

Section Shell.

(** [wayland::weston_desktop_shell_t::interface_name] and
    [wayland::output_t::interface_name], which are not among the
    sources. *)
Variables desktop_shell_interface_name output_interface_name : string.

(** Lines 181-202, the [on_global] handler. *)
Definition shell_on_global (d : ShellDesktop) (g : Global)
  : ShellDesktop * list ShellStep :=
  let got := shell_log_debug ("Got registry: " ++ g_interface g) in
  if String.eqb (g_interface g) desktop_shell_interface_name then
    (mkShellDesktop (Some (bound_to g)) (sd_output d) true,
     [got; shell_bind (g_name g) DesktopShell (g_version g);
      shell_log_debug "Bound desktop shell"])
  else if String.eqb (g_interface g) output_interface_name then
    (mkShellDesktop (sd_shell d) (Some (bound_to g)) (sd_shell_handlers d),
     [got; shell_bind (g_name g) ShellOutput (g_version g)])
  else (d, [got]).

(** Line 203: the handler runs for each global announced during the
    roundtrip. *)
Fixpoint shell_roundtrip (d : ShellDesktop) (gs : list Global)
  : ShellDesktop * list ShellStep :=
  match gs with
  | [] => (d, [])
  | g :: rest =>
      let '(d1, t1) := shell_on_global d g in
      let '(d2, t2) := shell_roundtrip d1 rest in
      (d2, t1 ++ t2)
  end.

(** Lines 176-209 of [tablecloth::main]: from the start to the test of
    the two proxies.  [display_ok] is [desktop.display] tested as a
    boolean.  What [main] does after the test (the window-building
    routines and the main loop) is not part of the model. *)
Definition shell_startup (display_ok : bool) (d : ShellDesktop) (gs : list Global)
  : ShellDesktop * list ShellStep :=
  let '(d', t) := shell_roundtrip d gs in
  (d',
   [shell_log_debug "Other FD: "]
   ++ (if display_ok then []
       else [shell_log_error "Failed to convert gdk wayland display to waylandpp"])
   ++ t
   ++ (if negb (is_some (sd_output d')) || negb (is_some (sd_shell d'))
       then [shell_log_error "could not find output or shell modules"]
       else [])).

End Shell.

Definition is_shell_bind (p : ShellProxy) (s : ShellStep) : bool :=
  match s, p with
  | shell_bind _ DesktopShell _, DesktopShell => true
  | shell_bind _ ShellOutput _, ShellOutput => true
  | _, _ => false
  end.

Definition shell_binds_of (p : ShellProxy) (t : list ShellStep) : nat :=
  List.length (filter (is_shell_bind p) t).


(** ** Requests of the Output constructor, by kind *)

Definition is_layout_request (c : BackendCall) : bool :=
  match c with
  | wlr_output_layout_add _ _ | wlr_output_layout_add_auto => true
  | _ => false
  end.

Definition is_enable_request (c : BackendCall) : bool :=
  match c with
  | wlr_output_enable _ => true
  | _ => false
  end.

Definition is_add_mode_request (c : BackendCall) : bool :=
  match c with
  | wlr_drm_connector_add_mode _ => true
  | _ => false
  end.

Definition is_scale_or_transform (c : BackendCall) : bool :=
  match c with
  | wlr_output_set_scale _ | wlr_output_set_transform _ => true
  | _ => false
  end.

(** ** Further concrete inputs *)

(** An output that has never shown another workspace, mid-way through its
    first blend. *)
Definition first_blend : Output :=
  mkOutput sample_wlr 2%nat None (4 # 10) empty_context.

(** Globals as a compositor may announce them: two seats, the layer shell
    twice, an output, and the virtual keyboard manager. *)
Definition sample_globals : list Global :=
  [mkGlobal 3 seat_name 5; mkGlobal 1 layer_shell_name 1;
   mkGlobal 7 "wl_output" 3; mkGlobal 2 vkm_name 1;
   mkGlobal 4 seat_name 5; mkGlobal 5 layer_shell_name 2].

Definition desktop_shell_name : string := "weston_desktop_shell".
Definition output_name : string := "wl_output".

Definition nothing_bound : ShellDesktop := mkShellDesktop None None false.

(** ** cloth::notifications (notification-server.cpp) *)

(** The image structure carried by the "image-data" hint. *)
Record ImageData := mkImageData {
  img_width : Z;
  img_height : Z;
  img_rowstride : Z;
  img_has_alpha : bool;
  img_bits_per_sample : Z;
  img_channels : Z;
  img_bytes : list Z
}.

(** What the code asks of a [DBus::Variant] (the D-Bus binding is not
    among the sources): its type code and the conversions it applies.  A
    conversion that fails inside the binding is outside the model. *)
Class DBusVariant := {
  Variant : Type;
  variant_type : Variant -> Ascii.ascii;   (* [v.reader().type()] *)
  to_uint8 : Variant -> Z;           (* [uint8_t(v)] *)
  to_uint32 : Variant -> Z;          (* [uint32_t(v)] *)
  to_int32 : Variant -> Z;           (* [int32_t(v)] *)
  to_string : Variant -> string;     (* conversion to [std::string] *)
  to_image : Variant -> ImageData    (* conversion to the [DBus::Struct] *)
}.

(** [util::starts_with] (util/ is not among the sources) and the outcome
    of [Gdk::Pixbuf::create_from_file]: [file_error path] holds when it
    throws [Glib::FileError]. *)
Class Toolkit := {
  starts_with : string -> string -> bool;
  file_error : string -> bool
}.

(** The values of the [Urgency] enumerators (notification-server.hpp is
    not among the sources); case labels of one [switch] are distinct. *)
Class UrgencyEnum := {
  Low : Z;
  Normal : Z;
  Critical : Z;
  Low_Normal : Low <> Normal;
  Low_Critical : Low <> Critical;
  Normal_Critical : Normal <> Critical
}.

(** The pixbuf a call would build, named by the call. *)
Inductive Pixbuf :=
| create_from_file (path : string)
| create_from_data (d : ImageData).

(** A result, or a [std::out_of_range] on its way up ([std::map::at] on a
    missing key, [std::string::substr] past the end). *)
Inductive Outcome (A : Type) :=
| Returns (a : A)
| Throws.

Arguments Returns {A} a.
Arguments Throws {A}.

Record Notification := mkNotification {
  n_id : Z;
  n_summary : string;
  n_body : string;
  n_actions : list string;
  n_urgency : Z;
  n_expire_timeout : Z;
  n_image : option Pixbuf * bool
}.

(** The D-Bus signals of the server. *)
Inductive Signal :=
| NotificationClosed (id reason : Z)
| ActionInvoked (id : Z) (action_key : string).

(** [NotificationServer]: the id counter, the notifications on screen and
    the signals emitted so far. *)
Record Server := mkServer {
  _id : Z;
  notifications : list Notification;
  emitted : list Signal
}.

(** A callback handed to [Glib::signal_idle().connect_once]. *)
Inductive IdleTask :=
| show_task (n : Notification)   (* queued by [Notify] *)
| close_task (id : Z).           (* queued by [CloseNotification] *)

Record NotifyReply := mkNotifyReply {
  reply_id : Z;                  (* the value returned *)
  reply_failed : bool;           (* [err] was set *)
  reply_server : Server;
  reply_task : option IdleTask
}.

(** The D-Bus type codes ['y'], ['u'] and ['i']. *)
Definition type_byte : Ascii.ascii := Ascii.ascii_of_nat 121.
Definition type_uint32 : Ascii.ascii := Ascii.ascii_of_nat 117.
Definition type_int32 : Ascii.ascii := Ascii.ascii_of_nat 105.

Definition uint8 (z : Z) : Z := (z mod 256)%Z.
Definition uint32 (z : Z) : Z := (z mod 4294967296)%Z.

Section Notifications.

Context {V : DBusVariant} {T : Toolkit} {U : UrgencyEnum}.

Local Open Scope string_scope.

(** [std::map<std::string, DBus::Variant>], read through [count] and
    [at]. *)
Definition Hints := string -> option Variant.

Definition count (hints : Hints) (k : string) : bool := is_some (hints k).

Definition at_key (hints : Hints) (k : string) : Outcome Variant :=
  match hints k with
  | Some v => Returns v
  | None => Throws
  end.

(** Lines 14-22: the source of the image, as (key, is_path, is_icon). *)
Definition image_key (hints : Hints) (app_icon : string)
  : Outcome (string * bool * bool) :=
  if count hints "image-data" then Returns ("image-data"%string, false, false)
  else if count hints "image_data" then Returns ("image_data"%string, false, false)
  else if count hints "image-path" then
    match at_key hints "image-path" with
    | Returns v => Returns (to_string v, true, false)
    | Throws => Throws
    end
  else if count hints "image_path" then
    match at_key hints "image_path" with
    | Returns v => Returns (to_string v, true, false)
    | Throws => Throws
    end
  else if negb (String.eqb app_icon "") then Returns (app_icon, true, true)
  else if count hints "icon_data" then Returns ("icon_data"%string, false, true)
  else Returns (""%string, true, false).

(** Line 25: [substr(7)] throws when the string is shorter than 7. *)
Definition strip_file_scheme (key : string) : Outcome string :=
  if starts_with "file://" key then
    if (7 <=? String.length key)%nat
    then Returns (substring 7 (String.length key - 7) key)
    else Throws
  else Returns key.

(** Lines 10-42.  A [Glib::FileError] is caught inside and gives the empty
    result; the log lines are left out. *)
Definition get_image (hints : Hints) (app_icon : string)
  : Outcome (option Pixbuf * bool) :=
  match image_key hints app_icon with
  | Throws => Throws
  | Returns (key, is_path, is_icon) =>
      if is_path && negb (String.eqb key "") then
        match strip_file_scheme key with
        | Throws => Throws
        | Returns path =>
            if file_error path then Returns (None, false)
            else Returns (Some (create_from_file path), is_icon)
        end
      else if negb (String.eqb key "") then
        match at_key hints "image-data" with
        | Throws => Throws
        | Returns v => Returns (Some (create_from_data (to_image v)), is_icon)
        end
      else Returns (None, false)
  end.

(** Lines 74-85. *)
Definition hint_urgency (hints : Hints) : Z :=
  if count hints "urgency" then
    match hints "urgency" with
    | Some urg =>
        if Ascii.eqb (variant_type urg) type_byte then uint8 (to_uint8 urg)
        else if Ascii.eqb (variant_type urg) type_uint32 then uint8 (to_uint32 urg)
        else if Ascii.eqb (variant_type urg) type_int32 then uint8 (to_int32 urg)
        else Normal
    | None => Normal
    end
  else Normal.

(** Lines 87-93: a [switch] without [default]. *)
Definition effective_timeout (urgency expire_timeout : Z) : Z :=
  if (expire_timeout <? 0)%Z then
    if (urgency =? Low)%Z then 5%Z
    else if (urgency =? Normal)%Z then 10%Z
    else if (urgency =? Critical)%Z then 0%Z
    else expire_timeout
  else expire_timeout.

(** Lines 49-114.  [_id] is taken to be a 32-bit unsigned counter, like the
    [notification_id] it is assigned to.  A [std::out_of_range] from
    [get_image] is caught by the handler at line 109. *)
Definition Notify (s : Server) (app_name : string) (not_id_in : Z)
  (app_icon summary body : string) (actions : list string) (hints : Hints)
  (expire_timeout_in : Z) : NotifyReply :=
  let '(notification_id, s1) :=
    if (not_id_in =? 0)%Z
    then (uint32 (_id s + 1),
          mkServer (uint32 (_id s + 1)) (notifications s) (emitted s))
    else (not_id_in, s) in
  let urgency := hint_urgency hints in
  let expire_timeout := effective_timeout urgency expire_timeout_in in
  match get_image hints app_icon with
  | Throws => mkNotifyReply not_id_in true s1 None
  | Returns image =>
      mkNotifyReply notification_id false s1
        (Some (show_task (mkNotification notification_id summary body actions
                            urgency expire_timeout image)))
  end.

End Notifications.

(** Lines 116-122. *)
Definition CloseNotification (id : Z) : IdleTask := close_task id.

Definition has_id (id : Z) (n : Notification) : bool := (n_id n =? id)%Z.

(** [erase(found)] for the first notification with the id. *)
Fixpoint erase_first (id : Z) (ns : list Notification) : list Notification :=
  match ns with
  | [] => []
  | n :: rest => if has_id id n then rest else n :: erase_first id rest
  end.

(** The two idle callbacks (lines 99-106 and 118-121).  Destroying a
    notification emits [NotificationClosed(id, 0)] (line 245). *)
Definition run_idle (t : IdleTask) (s : Server) : Server :=
  match t with
  | show_task n =>
      mkServer (_id s)
        (filter (fun m => negb (has_id (n_id n) m)) (notifications s) ++ [n])
        (emitted s
         ++ map (fun m => NotificationClosed (n_id m) 0)
              (filter (has_id (n_id n)) (notifications s)))
  | close_task id =>
      if existsb (has_id id) (notifications s) then
        mkServer (_id s) (erase_first id (notifications s))
          (emitted s ++ [NotificationClosed id 0])
      else s
  end.

Definition ids (s : Server) : list Z := map n_id (notifications s).

(** ** Notification::Notification: the action buttons *)

(** Lines 160-173: [prev] and [cur] walk the action list two steps at a
    time; each round makes a button for the pair (action key, label).
    The iterators are modelled by their positions: moving [cur] one past
    the end, as the loop does for an empty list and after the last pair
    of a list of even length, is plain position arithmetic here. *)
Fixpoint action_loop (fuel : nat) (actions : list string) (prev cur : nat)
  : list (string * string) :=
  match fuel with
  | O => []
  | S fuel' =>
      if negb (cur =? List.length actions)%nat && negb (prev =? List.length actions)%nat
      then (nth prev actions ""%string, nth cur actions ""%string)
           :: action_loop fuel' actions (prev + 2) (cur + 2)
      else []
  end.

Definition action_buttons (actions : list string) : list (string * string) :=
  action_loop (S (List.length actions)) actions 0 1.

(** The list taken two by two; an unpaired last element is left over. *)
Fixpoint two_by_two (l : list string) : list (string * string) :=
  match l with
  | a :: b :: rest => (a, b) :: two_by_two rest
  | _ => []
  end.

(** ** Concrete notifications *)

Inductive SampleVariant :=
| sv_byte (b : Z)
| sv_uint32 (n : Z)
| sv_string (s : string)
| sv_image (d : ImageData).

Definition blank_image : ImageData := mkImageData 0 0 0 false 8 3 [].

Definition sample_variant : DBusVariant :=
  {| Variant := SampleVariant;
     variant_type := fun v =>
       match v with
       | sv_byte _ => type_byte
       | sv_uint32 _ => type_uint32
       | sv_string _ => Ascii.ascii_of_nat 115
       | sv_image _ => Ascii.ascii_of_nat 114
       end;
     to_uint8 := fun v => match v with sv_byte b => b | _ => 0%Z end;
     to_uint32 := fun v => match v with sv_uint32 n => n | _ => 0%Z end;
     to_int32 := fun _ => 0%Z;
     to_string := fun v => match v with sv_string s => s | _ => ""%string end;
     to_image := fun v => match v with sv_image d => d | _ => blank_image end |}.

Definition sample_toolkit : Toolkit :=
  {| starts_with := fun p s => String.prefix p s; file_error := fun _ => false |}.

Definition no_hints : @Hints sample_variant := fun _ => None.

(** Only the deprecated "image_data" hint is given. *)
Definition deprecated_image_hint : @Hints sample_variant :=
  fun k => if String.eqb k "image_data" then Some (sv_image blank_image) else None.

Definition note (id : Z) (summary : string) : Notification :=
  mkNotification id summary "" [] 1 10 (None, false).

Definition two_notes : Server :=
  mkServer 2 [note 1 "first"; note 2 "second"] [].

(** The urgency levels of the desktop notification protocol. *)
Definition protocol_urgency : UrgencyEnum :=
  {| Low := 0%Z; Normal := 1%Z; Critical := 2%Z;
     Low_Normal := ltac:(discriminate);
     Low_Critical := ltac:(discriminate);
     Normal_Critical := ltac:(discriminate) |}.

Definition sample_Notify :=
  @Notify sample_variant sample_toolkit protocol_urgency.

(** ** Facts about the comparisons *)

Lemma Qlt_bool_iff (a b : Q) : Qlt_bool a b = true <-> a < b.
Proof.
  unfold Qlt_bool. rewrite negb_true_iff.
  split; intro H.
  - apply Qnot_le_lt. intro L. apply Qle_bool_iff in L. congruence.
  - destruct (Qle_bool b a) eqn:E; [|reflexivity].
    apply Qle_bool_iff in E. lra.
Qed.

Lemma Qlt_bool_false (a b : Q) : Qlt_bool a b = false <-> b <= a.
Proof.
  unfold Qlt_bool. rewrite negb_false_iff. apply Qle_bool_iff.
Qed.

Lemma Qle_bool_false (a b : Q) : Qle_bool a b = false <-> b < a.
Proof.
  rewrite <- Qlt_bool_iff. unfold Qlt_bool.
  destruct (Qle_bool a b); simpl; split; congruence.
Qed.

Ltac qcases :=
  repeat match goal with
  | |- context [Qle_bool ?a ?b] =>
      let E := fresh "E" in
      destruct (Qle_bool a b) eqn:E;
      [apply Qle_bool_iff in E | apply Qle_bool_false in E]
  | |- context [Qlt_bool ?a ?b] =>
      let E := fresh "E" in
      destruct (Qlt_bool a b) eqn:E;
      [apply Qlt_bool_iff in E | apply Qlt_bool_false in E]
  end.

(** ** Output::render: the blend factor *)

Section RenderFacts.

Variable deref : ws_ptr -> Workspace.
Variable visible_views : Workspace -> list View.

Lemma render_disabled (o : Output) :
  enabled (wlr_output o) = false -> render deref visible_views o = o.
Proof. intro H. unfold render. rewrite H. reflexivity. Qed.

Lemma render_wlr_output (o : Output) :
  wlr_output (render deref visible_views o) = wlr_output o.
Proof.
  unfold render.
  destruct (enabled (wlr_output o)); simpl; [|reflexivity].
  destruct (bypass deref o); reflexivity.
Qed.

Lemma render_workspace (o : Output) :
  workspace (render deref visible_views o) = workspace o.
Proof.
  unfold render.
  destruct (enabled (wlr_output o)); simpl; [|reflexivity].
  destruct (bypass deref o); reflexivity.
Qed.

Lemma render_ws_alpha (o : Output) :
  enabled (wlr_output o) = true -> ws_alpha (render deref visible_views o) = advance o.
Proof.
  intro H. unfold render. rewrite H. simpl.
  destruct (bypass deref o); reflexivity.
Qed.

Lemma advance_range (o : Output) :
  0 <= ws_alpha o -> 0 <= advance o <= 1.
Proof.
  intro H. unfold advance.
  destruct (restarts o); qcases; lra.
Qed.

Lemma render_keeps_range (o : Output) :
  0 <= ws_alpha o <= 1 -> 0 <= ws_alpha (render deref visible_views o) <= 1.
Proof.
  intro H. destruct (enabled (wlr_output o)) eqn:E.
  - rewrite render_ws_alpha by assumption. apply advance_range. tauto.
  - rewrite render_disabled by assumption. assumption.
Qed.

Lemma iter_render_range (n : nat) (o : Output) :
  0 <= ws_alpha o <= 1 ->
  0 <= ws_alpha (Nat.iter n (render deref visible_views) o) <= 1.
Proof.
  intro H. induction n as [|n IH]; simpl; [assumption|].
  apply render_keeps_range. exact IH.
Qed.

(** C5.  A render of an enabled Output moves [ws_alpha] one step of 0.1
    forward (from 0 when a fresh switch restarts the blend) and caps it at
    1; a blend factor that is not negative before the render lies in
    [0,1] after it, and after any number of further renders. *)
Theorem render_advances_and_clamps (o : Output) (n : nat) :
  enabled (wlr_output o) = true ->
  0 <= ws_alpha o ->
  let start := if restarts o then 0 else ws_alpha o in
  let o' := render deref visible_views o in
  (start + (1 # 10) <= 1 -> ws_alpha o' = start + (1 # 10))
  /\ (1 < start + (1 # 10) -> ws_alpha o' = 1)
  /\ 0 <= ws_alpha o' <= 1
  /\ 0 <= ws_alpha (Nat.iter n (render deref visible_views) o') <= 1.
Proof.
  intros En Pos start o'.
  assert (R : 0 <= ws_alpha o' <= 1).
  { unfold o'. rewrite render_ws_alpha by assumption.
    apply advance_range. assumption. }
  repeat split; try tauto.
  - intro H. unfold o'. rewrite render_ws_alpha by assumption.
    unfold advance. fold start. qcases; try reflexivity; lra.
  - intro H. unfold o'. rewrite render_ws_alpha by assumption.
    unfold advance. fold start. qcases; try reflexivity; lra.
  - apply iter_render_range. assumption.
  - apply iter_render_range. assumption.
Qed.

(** ** Output::render: the calls on the render context *)

Lemma render_calls (o : Output) :
  enabled (wlr_output o) = true ->
  let o' := render deref visible_views o in
  ctx_calls (context o') =
    ctx_calls (context o)
    ++ DoRender (ctx_views (context o')) (ctx_fullscreen_view (context o'))
       :: (if Qlt_bool (ws_alpha o') 1 then [DamageWhole] else []).
Proof.
  intros En o'. unfold o', render. rewrite En. simpl.
  assert (P : forall a c, ctx_calls (append_prev deref visible_views o a c) = ctx_calls c).
  { intros a c. unfold append_prev.
    destruct (prev_workspace o); [|reflexivity].
    destruct (Qlt_bool 0 (1 - a)); reflexivity. }
  assert (C : forall a q c, ctx_calls (append_cur deref visible_views o a q c) = ctx_calls c).
  { intros a q c. unfold append_cur.
    destruct (Qlt_bool 0 a); reflexivity. }
  destruct (bypass deref o); simpl;
    destruct (Qlt_bool (advance o) 1); simpl;
    rewrite ?C, ?P; simpl; rewrite <- ?app_assoc; reflexivity.
Qed.

(** C8.  The batch is handed to the renderer exactly once per render; the
    whole output is damaged right after the hand-over when the blend
    factor is still below 1, and [render] adds no damage when it has
    reached 1. *)
Theorem render_damages_while_animating (o : Output) :
  enabled (wlr_output o) = true ->
  let o' := render deref visible_views o in
  let batch := DoRender (ctx_views (context o')) (ctx_fullscreen_view (context o')) in
  (ws_alpha o' < 1 ->
     ctx_calls (context o') = ctx_calls (context o) ++ [batch; DamageWhole])
  /\ (1 <= ws_alpha o' ->
     ctx_calls (context o') = ctx_calls (context o) ++ [batch]).
Proof.
  intros En o' batch.
  pose proof (render_calls o En) as H. cbv zeta in H. fold o' in H. fold batch in H.
  split; intro A; rewrite H.
  - apply Qlt_bool_iff in A. rewrite A. reflexivity.
  - apply Qlt_bool_false in A. rewrite A. reflexivity.
Qed.

(** ** Output::render: the fullscreen bypass *)

Lemma bypass_taken (o : Output) :
  prev_workspace o = Some (workspace o) ->
  bypass deref o = is_some (fullscreen_view (deref (workspace o))).
Proof.
  intro Same. unfold bypass. rewrite Same. simpl.
  rewrite Nat.eqb_refl. reflexivity.
Qed.

Lemma render_bypass_context (o : Output) :
  enabled (wlr_output o) = true ->
  bypass deref o = true ->
  let o' := render deref visible_views o in
  ctx_views (context o') = []
  /\ ctx_fullscreen_view (context o') = fullscreen_view (deref (workspace o))
  /\ prev_workspace o' = prev_workspace o.
Proof.
  intros En B o'. unfold o', render. rewrite En, B. simpl.
  destruct (Qlt_bool (advance o) 1); simpl; auto.
Qed.

(** C6.  When [prev_workspace] is the active workspace and that workspace
    has a fullscreen view, the context handed to the renderer refers to
    that view itself and holds no per-view entry: nothing is scaled or
    shifted, and [prev_workspace] is left as it was. *)
Theorem render_fullscreen_bypass (o : Output) (f : View) :
  enabled (wlr_output o) = true ->
  prev_workspace o = Some (workspace o) ->
  fullscreen_view (deref (workspace o)) = Some f ->
  let o' := render deref visible_views o in
  ctx_views (context o') = []
  /\ ctx_fullscreen_view (context o') = Some f
  /\ ctx_calls (context o') =
       ctx_calls (context o)
       ++ DoRender [] (Some f)
          :: (if Qlt_bool (ws_alpha o') 1 then [DamageWhole] else [])
  /\ prev_workspace o' = prev_workspace o.
Proof.
  intros En Same Full o'.
  assert (B : bypass deref o = true).
  { rewrite bypass_taken by assumption. rewrite Full. reflexivity. }
  destruct (render_bypass_context o En B) as (V1 & V2 & V3).
  fold o' in V1, V2, V3. rewrite Full in V2.
  repeat split; try assumption.
  pose proof (render_calls o En) as H. cbv zeta in H. fold o' in H.
  rewrite H, V1, V2. reflexivity.
Qed.

(** ** Output::render: a transition frame *)

Lemma advance_pos (o : Output) : 0 <= ws_alpha o -> 0 < advance o.
Proof.
  intro H. unfold advance. destruct (restarts o); qcases; lra.
Qed.

Lemma render_views_no_bypass (o : Output) :
  enabled (wlr_output o) = true ->
  bypass deref o = false ->
  let a := advance o in
  ctx_views (context (render deref visible_views o)) =
    ctx_views (append_cur deref visible_views o a (finish_prev o a)
                 (append_prev deref visible_views o a (reset (context o))))
  /\ prev_workspace (render deref visible_views o) = finish_prev o a.
Proof.
  intros En B a. unfold render. rewrite En, B. simpl. fold a.
  destruct (Qlt_bool a 1); split; reflexivity.
Qed.

(** C1.  On a frame of a transition (the previous workspace [p] is set and
    is not the active one, and the blend factor [a] after this render's
    step is below 1) the batch is: every visible view of the previous
    workspace with opacity times [1 - a] and its x lowered by [dx], then
    every visible view of the current workspace with opacity times [a] and
    its x raised by [dx'], where [dx = W * a] and [dx' = W * (1 - a)], both
    negated when the current workspace's index is below the previous
    one's. *)
Theorem render_transition_frame (o : Output) (p : ws_ptr) :
  enabled (wlr_output o) = true ->
  prev_workspace o = Some p ->
  p <> workspace o ->
  0 <= ws_alpha o ->
  ws_alpha (render deref visible_views o) < 1 ->
  let a := ws_alpha (render deref visible_views o) in
  let W := inject_Z (out_width (wlr_output o)) in
  let flip := (index (deref (workspace o)) <? index (deref p))%Z in
  let dx := if flip then - (W * a) else W * a in
  let dx' := if flip then - (W * (1 - a)) else W * (1 - a) in
  0 < a
  /\ ctx_views (context (render deref visible_views o)) =
       map (fun v =>
              (v, mkRenderData
                    (mkLayout (view_x v - dx) (view_y v)
                              (inject_Z (view_width v)) (inject_Z (view_height v))
                              (view_rotation v))
                    (view_alpha v * (1 - a))))
           (visible_views (deref p))
       ++
       map (fun v =>
              (v, mkRenderData
                    (mkLayout (view_x v + dx') (view_y v)
                              (inject_Z (view_width v)) (inject_Z (view_height v))
                              (view_rotation v))
                    (view_alpha v * a)))
           (visible_views (deref (workspace o))).
Proof.
  intros En Prev Ne Pos Lt a W flip dx dx'.
  assert (Ea : a = advance o) by (apply render_ws_alpha; assumption).
  assert (Pa : 0 < a) by (rewrite Ea; apply advance_pos; assumption).
  split; [exact Pa|].
  assert (B : bypass deref o = false).
  { unfold bypass. rewrite Prev. simpl.
    apply Nat.eqb_neq in Ne. rewrite Ne. reflexivity. }
  destruct (render_views_no_bypass o En B) as [V _]. rewrite V. clear V.
  fold a in Lt. rewrite <- Ea.
  unfold append_cur, finish_prev, append_prev. rewrite Prev.
  assert (L1 : Qlt_bool 0 (1 - a) = true) by (apply Qlt_bool_iff; lra).
  assert (L2 : Qle_bool 1 a = false) by (apply Qle_bool_false; lra).
  assert (L3 : Qlt_bool 0 a = true) by (apply Qlt_bool_iff; lra).
  rewrite L1, L2, L3. simpl.
  fold W. fold flip. reflexivity.
Qed.

End RenderFacts.

(** ** Output::render: the end of a transition *)

Section TransitionEnd.

Variable deref : ws_ptr -> Workspace.
Variable visible_views : Workspace -> list View.

Lemma advance_le_1 (o : Output) : advance o <= 1.
Proof.
  unfold advance. destruct (restarts o); qcases; lra.
Qed.

Lemma same_entry_cur (a dx : Q) (vs : list View) :
  a == 1 -> dx == 0 ->
  Forall2 same_entry (map (cur_entry a dx) vs) (map (scaled_shifted 1 0) vs).
Proof.
  intros Ha Hd. induction vs as [|v vs IH]; simpl; constructor; [|exact IH].
  unfold same_entry, same_data, cur_entry, scaled_shifted. simpl.
  rewrite Ha, Hd. repeat split; reflexivity.
Qed.

(** The frame on which the blend factor is 1: [prev_workspace] becomes the
    active workspace, and outside the fullscreen bypass the batch is the
    visible views of the active workspace, unscaled and unshifted. *)
Lemma render_at_full_blend (o : Output) :
  enabled (wlr_output o) = true ->
  1 <= ws_alpha (render deref visible_views o) ->
  prev_workspace (render deref visible_views o) = Some (workspace o)
  /\ (bypass deref o = false ->
      Forall2 same_entry
        (ctx_views (context (render deref visible_views o)))
        (map (scaled_shifted 1 0) (visible_views (deref (workspace o))))).
Proof.
  intros En Full.
  rewrite (render_ws_alpha deref visible_views o En) in Full.
  pose proof (advance_le_1 o) as Le.
  assert (A1 : advance o == 1) by lra.
  destruct (bypass deref o) eqn:B.
  - split; [|discriminate].
    unfold render. rewrite En, B. simpl.
    unfold bypass in B. apply andb_true_iff in B. destruct B as [S _].
    unfold same_ws in S. destruct (prev_workspace o) as [p|]; [|discriminate].
    apply Nat.eqb_eq in S. subst p. reflexivity.
  - destruct (render_views_no_bypass deref visible_views o En B) as [V P].
    rewrite V, P. clear V P.
    assert (F : finish_prev o (advance o) = Some (workspace o)).
    { unfold finish_prev. apply Qle_bool_iff in Full. rewrite Full. reflexivity. }
    split; [exact F|]. intros _. rewrite F.
    assert (NP : append_prev deref visible_views o (advance o) (reset (context o))
                 = reset (context o)).
    { unfold append_prev. destruct (prev_workspace o); [|reflexivity].
      assert (L : Qlt_bool 0 (1 - advance o) = false) by (apply Qlt_bool_false; lra).
      rewrite L. reflexivity. }
    rewrite NP. unfold append_cur.
    assert (L : Qlt_bool 0 (advance o) = true) by (apply Qlt_bool_iff; lra).
    rewrite L, Z.ltb_irrefl. simpl.
    apply same_entry_cur; [exact A1|]. rewrite A1. ring.
Qed.

Lemma render_stays_full (o : Output) :
  enabled (wlr_output o) = true ->
  prev_workspace o = Some (workspace o) ->
  1 <= ws_alpha o ->
  ws_alpha (render deref visible_views o) == 1.
Proof.
  intros En Prev Full.
  rewrite (render_ws_alpha deref visible_views o En).
  unfold advance, restarts. rewrite Prev. simpl. rewrite Nat.eqb_refl. simpl.
  qcases; lra.
Qed.

(** C2, as the code has it.  When the blend factor reaches 1 in a render,
    [prev_workspace] is set to the active workspace (it is not nulled),
    before the active workspace's views are appended: that render, and the
    one after it, emit only the active workspace's views, unscaled and
    unshifted (or its fullscreen view alone), and the blend factor stays
    at 1.  So after a render [prev_workspace] differs from [workspace]
    only while [ws_alpha < 1]. *)
Theorem render_completes_transition (o : Output) :
  enabled (wlr_output o) = true ->
  1 <= ws_alpha (render deref visible_views o) ->
  let o' := render deref visible_views o in
  let o'' := render deref visible_views o' in
  let cur := deref (workspace o) in
  prev_workspace o' = Some (workspace o)
  /\ (bypass deref o = false ->
      Forall2 same_entry (ctx_views (context o'))
        (map (scaled_shifted 1 0) (visible_views cur)))
  /\ ws_alpha o'' == 1
  /\ prev_workspace o'' = Some (workspace o)
  /\ (fullscreen_view cur = None ->
      Forall2 same_entry (ctx_views (context o''))
        (map (scaled_shifted 1 0) (visible_views cur)))
  /\ (forall f, fullscreen_view cur = Some f ->
      ctx_views (context o'') = [] /\ ctx_fullscreen_view (context o'') = Some f).
Proof.
  intros En Full o' o'' cur.
  destruct (render_at_full_blend o En Full) as [P1 V1]. fold o' in P1, V1.
  assert (En' : enabled (wlr_output o') = true).
  { unfold o'. rewrite render_wlr_output. exact En. }
  assert (W' : workspace o' = workspace o) by apply render_workspace.
  assert (P1' : prev_workspace o' = Some (workspace o')) by (rewrite W'; exact P1).
  assert (A2 : ws_alpha o'' == 1) by (apply render_stays_full; assumption).
  assert (Full' : 1 <= ws_alpha (render deref visible_views o')).
  { fold o''. lra. }
  destruct (render_at_full_blend o' En' Full') as [P2 V2].
  fold o'' in P2, V2. rewrite W' in P2, V2. fold cur in V2.
  repeat split; try assumption.
  - intro N. apply V2. unfold bypass. rewrite W'. fold cur. rewrite N.
    apply andb_false_r.
  - apply (render_bypass_context deref visible_views o' En').
    rewrite bypass_taken, W' by assumption. fold cur. rewrite H. reflexivity.
  - destruct (render_bypass_context deref visible_views o' En') as (_ & F & _).
    + rewrite bypass_taken, W' by assumption. fold cur. rewrite H. reflexivity.
    + fold o'' in F. rewrite F, W'. exact H.
Qed.

End TransitionEnd.

(** ** The design document's transition, frame by frame *)

Ltac closed_le := vm_compute; discriminate.
Ltac closed_lt := vm_compute; reflexivity.

(** Third frame of a switch from index 2 to index 0 on a 1000-wide output:
    the blend factor is 0.3, the views of the previous workspace stand 300
    to the right at 0.7 of their opacity, the view of the new workspace
    700 to the left at 0.3 of its opacity. *)
Lemma render_transition_frame_witness :
  (enabled (wlr_output switching_2_to_0) = true
   /\ prev_workspace switching_2_to_0 = Some 2%nat
   /\ 2%nat <> workspace switching_2_to_0
   /\ 0 <= ws_alpha switching_2_to_0
   /\ ws_alpha (render sample_deref visible_views_spec switching_2_to_0) < 1)
  /\ ws_alpha (render sample_deref visible_views_spec switching_2_to_0) == 3 # 10
  /\ Forall2 same_entry
       (ctx_views (context (render sample_deref visible_views_spec switching_2_to_0)))
       [scaled_shifted (7 # 10) 300 view_b;
        scaled_shifted (7 # 10) 300 view_c;
        scaled_shifted (3 # 10) (-700) view_a].
Proof.
  assert (H1 : enabled (wlr_output switching_2_to_0) = true) by reflexivity.
  assert (H2 : prev_workspace switching_2_to_0 = Some 2%nat) by reflexivity.
  assert (H3 : 2%nat <> workspace switching_2_to_0) by discriminate.
  assert (H4 : 0 <= ws_alpha switching_2_to_0) by closed_le.
  assert (H5 : ws_alpha (render sample_deref visible_views_spec switching_2_to_0) < 1)
    by closed_lt.
  split; [repeat split; assumption|].
  split; [vm_compute; reflexivity|].
  destruct (render_transition_frame sample_deref visible_views_spec
              switching_2_to_0 2%nat H1 H2 H3 H4 H5) as [_ V].
  rewrite V.
  repeat constructor; vm_compute; reflexivity.
Defined.

Lemma render_advances_and_clamps_witness :
  enabled (wlr_output switching_2_to_0) = true
  /\ 0 <= ws_alpha switching_2_to_0
  /\ ws_alpha (render sample_deref visible_views_spec switching_2_to_0)
     = (2 # 10) + (1 # 10)
  /\ 0 <= ws_alpha (Nat.iter 12 (render sample_deref visible_views_spec)
                      (render sample_deref visible_views_spec switching_2_to_0)) <= 1.
Proof.
  assert (H1 : enabled (wlr_output switching_2_to_0) = true) by reflexivity.
  assert (H2 : 0 <= ws_alpha switching_2_to_0) by closed_le.
  destruct (render_advances_and_clamps sample_deref visible_views_spec
              switching_2_to_0 12 H1 H2) as (S & _ & _ & I).
  split; [exact H1|]. split; [exact H2|]. split; [|exact I].
  apply S. closed_le.
Defined.

Lemma render_damages_while_animating_witness :
  enabled (wlr_output switching_2_to_0) = true
  /\ ws_alpha (render sample_deref visible_views_spec switching_2_to_0) < 1
  /\ exists batch,
       ctx_calls (context (render sample_deref visible_views_spec switching_2_to_0))
       = [DoRender batch None; DamageWhole].
Proof.
  assert (H1 : enabled (wlr_output switching_2_to_0) = true) by reflexivity.
  assert (H2 : ws_alpha (render sample_deref visible_views_spec switching_2_to_0) < 1)
    by closed_lt.
  repeat split; try assumption.
  destruct (render_damages_while_animating sample_deref visible_views_spec
              switching_2_to_0 H1) as [D _].
  eexists. rewrite (D H2). reflexivity.
Defined.

Lemma render_fullscreen_bypass_witness :
  enabled (wlr_output settled_fullscreen) = true
  /\ prev_workspace settled_fullscreen = Some (workspace settled_fullscreen)
  /\ fullscreen_view (sample_deref (workspace settled_fullscreen)) = Some view_b
  /\ ctx_views (context (render sample_deref visible_views_spec settled_fullscreen)) = []
  /\ ctx_fullscreen_view
       (context (render sample_deref visible_views_spec settled_fullscreen))
     = Some view_b.
Proof.
  assert (H1 : enabled (wlr_output settled_fullscreen) = true) by reflexivity.
  assert (H2 : prev_workspace settled_fullscreen = Some (workspace settled_fullscreen))
    by reflexivity.
  assert (H3 : fullscreen_view (sample_deref (workspace settled_fullscreen))
               = Some view_b) by reflexivity.
  destruct (render_fullscreen_bypass sample_deref visible_views_spec
              settled_fullscreen view_b H1 H2 H3) as (V & F & _).
  repeat split; assumption.
Defined.

(** The tenth frame of the same switch brings the blend factor to 1, and
    [prev_workspace] is then the address of the active workspace, not
    null. *)
Lemma prev_workspace_not_cleared :
  let o' := render sample_deref visible_views_spec last_frame_2_to_0 in
  ws_alpha o' == 1
  /\ prev_workspace o' = Some 0%nat
  /\ ~ (1 <= ws_alpha o' -> prev_workspace o' = None)
  /\ ~ (prev_workspace o' <> None -> ws_alpha o' < 1).
Proof.
  cbv zeta. split; [vm_compute; reflexivity|].
  split; [vm_compute; reflexivity|].
  split; intro H.
  - assert (C : prev_workspace (render sample_deref visible_views_spec last_frame_2_to_0)
                = None) by (apply H; closed_le).
    vm_compute in C. discriminate C.
  - assert (C : ws_alpha (render sample_deref visible_views_spec last_frame_2_to_0) < 1).
    { apply H. vm_compute. discriminate. }
    vm_compute in C. discriminate C.
Qed.

Lemma render_completes_transition_witness :
  enabled (wlr_output last_frame_2_to_0) = true
  /\ 1 <= ws_alpha (render sample_deref visible_views_spec last_frame_2_to_0)
  /\ prev_workspace (render sample_deref visible_views_spec last_frame_2_to_0)
     = Some 0%nat
  /\ Forall2 same_entry
       (ctx_views (context (render sample_deref visible_views_spec
                              (render sample_deref visible_views_spec last_frame_2_to_0))))
       [scaled_shifted 1 0 view_a].
Proof.
  assert (H1 : enabled (wlr_output last_frame_2_to_0) = true) by reflexivity.
  assert (H2 : 1 <= ws_alpha (render sample_deref visible_views_spec last_frame_2_to_0))
    by closed_le.
  destruct (render_completes_transition sample_deref visible_views_spec
              last_frame_2_to_0 H1 H2) as (P & _ & _ & _ & V & _).
  repeat split; try assumption.
  apply V. reflexivity.
Defined.

(** ** set_mode *)

Section SetMode.

Variable oc : ConfigOutput.
Variable mhz : Z.

Lemma last_of_cons {A} (a : A) (l : list A) :
  last_of (a :: l) = match last_of l with Some b => Some b | None => Some a end.
Proof.
  unfold last_of. simpl. destruct (rev l) as [|b r]; reflexivity.
Qed.

(** The loop, whatever [best] holds on entry. *)
Lemma scan_modes_spec (ms : list output_mode) (best : option output_mode) :
  scan_modes oc mhz ms best =
    match find (exact_match oc mhz) ms with
    | Some m => Some m
    | None =>
        match last_of (filter (size_matches oc) ms) with
        | Some m => Some m
        | None => best
        end
    end.
Proof.
  revert best. induction ms as [|m ms IH]; intro best; simpl; [reflexivity|].
  unfold exact_match at 1.
  destruct (size_matches oc m) eqn:S; simpl.
  - destruct (refresh_matches mhz m) eqn:R; [reflexivity|].
    rewrite IH, last_of_cons.
    destruct (find (exact_match oc mhz) ms); [reflexivity|].
    destruct (last_of (filter (size_matches oc) ms)); reflexivity.
  - apply IH.
Qed.

Lemma scan_modes_negotiated (ms : list output_mode) :
  scan_modes oc mhz ms None = negotiated_mode oc mhz ms.
Proof.
  rewrite scan_modes_spec. unfold negotiated_mode.
  destruct (find (exact_match oc mhz) ms); [reflexivity|].
  destruct (last_of (filter (size_matches oc) ms)); reflexivity.
Qed.

Lemma find_none_app (pre : list output_mode) (m : output_mode) (post : list output_mode) :
  (forall m', In m' pre -> exact_match oc mhz m' = false) ->
  find (exact_match oc mhz) (pre ++ m :: post) =
    if exact_match oc mhz m then Some m else find (exact_match oc mhz) post.
Proof.
  intro H. induction pre as [|p pre IH]; simpl; [reflexivity|].
  rewrite (H p) by (left; reflexivity).
  apply IH. intros m' I. apply H. right. exact I.
Qed.

End SetMode.

Lemma last_of_none {A} (l : list A) : last_of l = None <-> l = [].
Proof.
  unfold last_of. split; intro H.
  - destruct (rev l) eqn:E; [|discriminate].
    rewrite <- (rev_involutive l), E. reflexivity.
  - subst l. reflexivity.
Qed.

Lemma filter_nil_iff {A} (f : A -> bool) (l : list A) :
  filter f l = [] <-> forall a, In a l -> f a = false.
Proof.
  induction l as [|b l IH]; simpl.
  - split; [intros _ a []| reflexivity].
  - destruct (f b) eqn:E; split; intro H.
    + discriminate.
    + rewrite (H b) in E by (left; reflexivity). discriminate.
    + intros a [->|I]; [exact E|]. apply IH; assumption.
    + apply IH. intros a I. apply H. right. exact I.
Qed.

Lemma negotiated_mode_none (oc : ConfigOutput) (mhz : Z) (ms : list output_mode) :
  negotiated_mode oc mhz ms = None <->
  forall m, In m ms -> size_matches oc m = false.
Proof.
  unfold negotiated_mode. split.
  - destruct (find (exact_match oc mhz) ms); [discriminate|].
    intro H. apply last_of_none in H. apply filter_nil_iff. exact H.
  - intro H.
    destruct (find (exact_match oc mhz) ms) as [m|] eqn:F.
    + apply find_some in F. destruct F as [I E].
      unfold exact_match in E. rewrite (H m I) in E. discriminate.
    + apply last_of_none. apply filter_nil_iff. exact H.
Qed.

Lemma set_mode_closed_form (output : wlr_output_t) (oc : ConfigOutput) :
  set_mode output oc =
    match modes output with
    | [] =>
        [wlr_output_set_custom_mode (cfg_width (mode oc)) (cfg_height (mode oc))
           (config_mhz oc)]
    | _ :: _ =>
        match negotiated_mode oc (config_mhz oc) (modes output) with
        | Some best =>
            [LOGD "Assigning configured mode to {}"; wlr_output_set_mode best]
        | None => [LOGE "Configured mode for {} not available"]
        end
    end.
Proof.
  unfold set_mode. destruct (modes output) as [|m ms]; [reflexivity|].
  rewrite scan_modes_negotiated. reflexivity.
Qed.

(** C3.  [set_mode] asks for a custom mode of the configured size when the
    output advertises no mode; otherwise it selects the first advertised
    mode that matches width, height and refresh rate, failing that the
    last one that matches width and height, and when none matches width
    and height it logs an error and requests no mode.  With 1920x1080 at
    60 Hz and at 144 Hz advertised and 1920x1080 at 144 Hz configured, the
    144 Hz mode is the one selected. *)
Theorem set_mode_negotiates :
  (forall output oc,
      set_mode output oc =
        match modes output with
        | [] =>
            [wlr_output_set_custom_mode (cfg_width (mode oc)) (cfg_height (mode oc))
               (config_mhz oc)]
        | _ :: _ =>
            match negotiated_mode oc (config_mhz oc) (modes output) with
            | Some best =>
                [LOGD "Assigning configured mode to {}"; wlr_output_set_mode best]
            | None => [LOGE "Configured mode for {} not available"]
            end
        end)
  /\ (forall oc ms,
        negotiated_mode oc (config_mhz oc) ms = None <->
        (forall m, In m ms -> size_matches oc m = false))
  /\ set_mode two_mode_output config_1080p144
     = [LOGD "Assigning configured mode to {}"; wlr_output_set_mode mode_1080p144]
  /\ set_mode two_mode_output config_1080p75
     = [LOGD "Assigning configured mode to {}"; wlr_output_set_mode mode_1080p144]
  /\ set_mode two_mode_output config_800x600
     = [LOGE "Configured mode for {} not available"]
  /\ set_mode headless_output config_1080p144
     = [wlr_output_set_custom_mode 1920 1080 144000].
Proof.
  split; [exact set_mode_closed_form|].
  split; [intros oc ms; apply negotiated_mode_none|].
  repeat split.
Qed.

(** ** The refresh rate in millihertz *)

Lemma to_int_nonneg (q : Q) :
  0 <= q -> inject_Z (to_int q) <= q /\ q < inject_Z (to_int q) + 1.
Proof.
  destruct q as [n d]. unfold to_int, Qle, Qlt. simpl. intro H.
  assert (N : (0 <= n)%Z) by lia.
  pose proof (Z.quot_rem' n (Zpos d)) as E.
  pose proof (Z.rem_bound_pos n (Zpos d) N ltac:(lia)) as B.
  split; nia.
Qed.

Lemma to_int_nonpos (q : Q) :
  q <= 0 -> inject_Z (to_int q) - 1 < q /\ q <= inject_Z (to_int q).
Proof.
  destruct q as [n d]. unfold to_int, Qle, Qlt. simpl. intro H.
  assert (N : (n <= 0)%Z) by lia.
  pose proof (Z.quot_rem' n (Zpos d)) as E.
  pose proof (Z.rem_bound_pos_neg n (Zpos d) ltac:(lia) N) as B.
  split; nia.
Qed.

Lemma exact_match_iff (oc : ConfigOutput) (mhz : Z) (m : output_mode) :
  size_matches oc m = true ->
  (exact_match oc mhz m = true <-> mode_refresh m = mhz).
Proof.
  intro S. unfold exact_match, refresh_matches. rewrite S. simpl.
  apply Z.eqb_eq.
Qed.

Lemma set_mode_selects (wlr : wlr_output_t) (oc : ConfigOutput) (m : output_mode) :
  modes wlr <> [] ->
  negotiated_mode oc (config_mhz oc) (modes wlr) = Some m ->
  set_mode wlr oc
  = [LOGD "Assigning configured mode to {}"; wlr_output_set_mode m].
Proof.
  intros Ne N. rewrite set_mode_closed_form.
  destruct (modes wlr); [congruence|]. rewrite N. reflexivity.
Qed.

(** C10.  The configured rate times 1000 - the floating product, rounded
    to the format of the rate - is cut to an integer toward zero, and a
    mode of the configured size is taken as the exact match (the scan
    stops at it, whatever follows it in the list) if and only if its
    [refresh] field is that integer. *)
Theorem refresh_compared_in_millihertz
  (wlr : wlr_output_t) (oc : ConfigOutput) (pre : list output_mode) (m : output_mode) :
  size_matches oc m = true ->
  (forall m', In m' pre -> size_matches oc m' = true ->
              mode_refresh m' <> config_mhz oc) ->
  let q := fp_value (fp_mul_int (refresh_rate (mode oc)) 1000) in
  let mhz := config_mhz oc in
  let advertising ms := mkWlrOutput (enabled wlr) (out_width wlr) ms (is_drm wlr) in
  (0 <= q -> inject_Z mhz <= q /\ q < inject_Z mhz + 1)
  /\ (q <= 0 -> inject_Z mhz - 1 < q /\ q <= inject_Z mhz)
  /\ (exact_match oc mhz m = true <-> mode_refresh m = mhz)
  /\ ((forall post,
         set_mode (advertising (pre ++ m :: post)) oc
         = [LOGD "Assigning configured mode to {}"; wlr_output_set_mode m])
      <-> mode_refresh m = mhz).
Proof.
  intros S Pre q mhz advertising.
  assert (NoPre : forall m', In m' pre -> exact_match oc mhz m' = false).
  { intros m' I. unfold exact_match.
    destruct (size_matches oc m') eqn:S'; [|reflexivity]. simpl.
    apply Z.eqb_neq. apply Pre; assumption. }
  split; [apply to_int_nonneg|].
  split; [apply to_int_nonpos|].
  split; [apply exact_match_iff; assumption|].
  split.
  - intro H.
    destruct (Z.eq_dec (mode_refresh m) mhz) as [E|Ne]; [exact E|].
    exfalso.
    set (m' := mkMode (cfg_width (mode oc)) (cfg_height (mode oc)) mhz).
    assert (X : exact_match oc mhz m' = true).
    { unfold exact_match, size_matches, refresh_matches, m'. simpl.
      rewrite !Z.eqb_refl. reflexivity. }
    assert (Xm : exact_match oc mhz m = false).
    { destruct (exact_match oc mhz m) eqn:Em; [|reflexivity].
      apply exact_match_iff in Em; [contradiction|assumption]. }
    specialize (H [m']).
    rewrite (set_mode_selects (advertising (pre ++ [m; m'])) oc m') in H.
    + assert (D : m' = m) by congruence.
      apply Ne. rewrite <- D. reflexivity.
    + simpl. destruct pre; discriminate.
    + unfold negotiated_mode. simpl. fold mhz.
      rewrite (find_none_app oc mhz pre m [m'] NoPre), Xm. simpl.
      rewrite X. reflexivity.
  - intros E post.
    apply set_mode_selects.
    + simpl. destruct pre; discriminate.
    + unfold negotiated_mode. simpl. fold mhz.
      rewrite (find_none_app oc mhz pre m post NoPre).
      assert (Xm : exact_match oc mhz m = true)
        by (apply exact_match_iff; assumption).
      rewrite Xm. reflexivity.
Qed.

(** The [float] 59.94 is compared as 59940 mHz (its product with 1000 is
    rounded to the [float] 59940 before it is cut): the 59940 mHz mode is
    its exact match.  The [double] 59.9995 gives 59999.5 and is compared
    as 59999 mHz. *)
Lemma refresh_compared_in_millihertz_witness :
  size_matches config_1080p_59_94 (mkMode 1920 1080 59940) = true
  /\ config_mhz config_1080p_59_94 = 59940%Z
  /\ config_mhz config_1080p_59_9995 = 59999%Z
  /\ set_mode (mkWlrOutput true 1920
                 [mode_1080p60; mkMode 1920 1080 59940; mode_1080p144] false)
       config_1080p_59_94
     = [LOGD "Assigning configured mode to {}";
        wlr_output_set_mode (mkMode 1920 1080 59940)].
Proof.
  assert (H1 : size_matches config_1080p_59_94 (mkMode 1920 1080 59940) = true)
    by reflexivity.
  assert (H2 : forall m', In m' [mode_1080p60] ->
               size_matches config_1080p_59_94 m' = true ->
               mode_refresh m' <> config_mhz config_1080p_59_94).
  { intros m' [<-|[]] _. vm_compute. discriminate. }
  destruct (refresh_compared_in_millihertz two_mode_output config_1080p_59_94
              [mode_1080p60] (mkMode 1920 1080 59940) H1 H2) as (_ & _ & _ & _ & S).
  split; [exact H1|]. split; [vm_compute; reflexivity|].
  split; [vm_compute; reflexivity|].
  apply (S ltac:(vm_compute; reflexivity) [mode_1080p144]).
Defined.

(** Common video rates: the product is rounded before it is cut, so the
    rate is compared as the round number of millihertz. *)
Lemma config_mhz_video_rates :
  config_mhz (config_at float_59_94) = 59940%Z
  /\ config_mhz (config_at float_29_97) = 29970%Z
  /\ config_mhz (config_at float_23_976) = 23976%Z
  /\ config_mhz (config_at double_59_94) = 59940%Z
  /\ config_mhz (config_at (fp_of_int binary64 144)) = 144000%Z.
Proof. repeat split; vm_compute; reflexivity. Qed.

(** ** Output::Output *)

Lemma mode_requests_app (s t : list BackendCall) :
  mode_requests (s ++ t) = mode_requests s ++ mode_requests t.
Proof. apply filter_app. Qed.

Lemma mode_requests_add_mode (ms : list output_mode) :
  mode_requests (map wlr_drm_connector_add_mode ms) = [].
Proof. induction ms as [|m ms IH]; simpl; [reflexivity | exact IH]. Qed.

Lemma mode_requests_preferred (wlr : wlr_output_t) :
  mode_requests (preferred_mode wlr) = preferred_mode wlr.
Proof. unfold preferred_mode. destruct (modes wlr); reflexivity. Qed.

Lemma mode_requests_added (add : wlr_output_t -> output_mode -> wlr_output_t)
  (wlr : wlr_output_t) (oc : ConfigOutput) :
  mode_requests (snd (add_custom_modes add wlr oc)) = [].
Proof.
  unfold add_custom_modes.
  destruct (is_drm wlr); simpl; [apply mode_requests_add_mode|].
  destruct (cfg_modes oc); reflexivity.
Qed.

(** The constructor does not run [set_mode] for a configuration that
    disables the output: with 1920x1080 (60 Hz) and 1280x720 advertised and
    a disabled configuration asking for 1920x1080 at 60 Hz, the only mode
    requested is the last advertised one, 1280x720, although [set_mode]
    would have selected 1920x1080. *)
Lemma configured_mode_not_negotiated_when_disabled :
  cfg_width (mode config_disabled_1080p60) <> 0%Z
  /\ mode_requests (set_mode output_1080_then_720 config_disabled_1080p60)
     = [wlr_output_set_mode mode_1080p60]
  /\ mode_requests (Output_ctor add_mode_at_head output_1080_then_720
                      (Some config_disabled_1080p60))
     = [wlr_output_set_mode mode_720p60]
  /\ ~ In (wlr_output_set_mode mode_1080p60)
          (Output_ctor add_mode_at_head output_1080_then_720
             (Some config_disabled_1080p60)).
Proof.
  split; [discriminate|]. split; [reflexivity|]. split; [reflexivity|].
  simpl. intros H.
  repeat (destruct H as [H|H]; [discriminate H|]). exact H.
Qed.

(** C7, as the code has it.  The constructor first requests the last
    advertised mode (the backend's preferred one) whenever the output
    advertises a mode.  It then runs [set_mode] on the configured mode
    exactly when the output has a configuration that enables it and whose
    mode width is not zero - on the output as the backend left it after
    the configured custom modes were added; with no configuration, no
    configured mode or a configuration that disables the output, the
    preferred mode is the only one requested. *)
Theorem Output_ctor_mode_requests
  (add : wlr_output_t -> output_mode -> wlr_output_t)
  (wlr : wlr_output_t) (cfg : option ConfigOutput) :
  mode_requests (Output_ctor add wlr cfg) =
    match modes wlr with
    | [] => []
    | m :: rest => [wlr_output_set_mode (last rest m)]
    end
    ++
    match cfg with
    | Some oc =>
        if enable oc && negb (cfg_width (mode oc) =? 0)%Z
        then mode_requests
               (set_mode (if is_drm wlr then fold_left add (cfg_modes oc) wlr else wlr)
                  oc)
        else []
    | None => []
    end.
Proof.
  unfold Output_ctor. rewrite !mode_requests_app. simpl.
  rewrite mode_requests_preferred, app_nil_r. unfold preferred_mode.
  f_equal. unfold apply_config.
  destruct cfg as [oc|]; [|reflexivity].
  destruct (enable oc); [|reflexivity]. simpl.
  pose proof (mode_requests_added add wlr oc) as A.
  assert (F : fst (add_custom_modes add wlr oc)
              = if is_drm wlr then fold_left add (cfg_modes oc) wlr else wlr).
  { unfold add_custom_modes. destruct (is_drm wlr); reflexivity. }
  destruct (add_custom_modes add wlr oc) as [wlr' added]. simpl in A, F.
  rewrite !mode_requests_app, A. simpl. rewrite app_nil_r, F.
  destruct (cfg_width (mode oc) =? 0)%Z; reflexivity.
Qed.

(** With a backend that puts an added mode at the head of the list, a
    configured mode that is one of the custom modes is the one
    negotiated. *)
Lemma custom_mode_negotiated :
  mode_requests (Output_ctor add_mode_at_head drm_output_720
                   (Some config_custom_1080p75))
  = [wlr_output_set_mode mode_720p60; wlr_output_set_mode mode_1080p75].
Proof. reflexivity. Qed.

(** ** cloth::kbd::Client::bind_interfaces *)

Section KbdFacts.

Variables vkm ls st : string.

Lemma on_global_seat_bound (c : Client) (g : Global) :
  seat c <> None ->
  seat (fst (on_global vkm ls st c g)) <> None
  /\ binds_of Seat (snd (on_global vkm ls st c g)) = 0%nat.
Proof.
  intro B. unfold on_global.
  destruct (String.eqb (g_interface g) vkm); [split; [exact B | reflexivity]|].
  destruct (String.eqb (g_interface g) ls); [split; [exact B | reflexivity]|].
  destruct (String.eqb (g_interface g) st); [|split; [exact B | reflexivity]].
  destruct (seat c) eqn:E; [|congruence].
  simpl. split; [discriminate | reflexivity].
Qed.

Lemma binds_of_app (p : Proxy) (s t : list RegistryCall) :
  binds_of p (s ++ t) = (binds_of p s + binds_of p t)%nat.
Proof. unfold binds_of. rewrite filter_app. apply length_app. Qed.

(** Once a seat is bound, no announcement makes the handler bind a seat
    again. *)
Lemma seat_announcements_ignored_once_bound (c : Client) (gs : list Global) :
  seat c <> None ->
  binds_of Seat (snd (bind_interfaces vkm ls st c gs)) = 0%nat.
Proof.
  revert c. induction gs as [|g gs IH]; intros c B; simpl; [reflexivity|].
  destruct (on_global_seat_bound c g B) as [B1 N1].
  destruct (on_global vkm ls st c g) as [c1 calls1]. simpl in B1, N1.
  specialize (IH c1 B1).
  destruct (bind_interfaces vkm ls st c1 gs) as [c2 calls2]. simpl in IH |- *.
  rewrite binds_of_app, N1, IH. reflexivity.
Qed.

End KbdFacts.

(** C9.  Two announcements of the layer-shell global make the handler bind
    the layer-shell proxy twice: only the seat branch of the handler tests
    whether its proxy is already bound.  Two announcements of the seat
    global bind the seat once. *)
Theorem layer_shell_bound_twice :
  let twice_layer_shell :=
    [mkGlobal 1 layer_shell_name 1; mkGlobal 2 layer_shell_name 1] in
  let twice_seat := [mkGlobal 3 seat_name 5; mkGlobal 4 seat_name 5] in
  snd (bind_interfaces vkm_name layer_shell_name seat_name
         no_globals_bound twice_layer_shell)
  = [registry_bind 1 LayerShell 1; registry_bind 2 LayerShell 1]
  /\ snd (bind_interfaces vkm_name layer_shell_name seat_name
            no_globals_bound twice_seat)
     = [registry_bind 3 Seat 5].
Proof. split; reflexivity. Qed.

(** ** Output::render: noticing a workspace switch *)

Section SwitchNoticed.

Variable deref : ws_ptr -> Workspace.
Variable visible_views : Workspace -> list View.





End SwitchNoticed.



(** * Further properties of the code *)

(** ** Output::render: frames outside the bypass *)

Section NoBypass.

Variable deref : ws_ptr -> Workspace.
Variable visible_views : Workspace -> list View.

Lemma bypass_not_taken_null (o : Output) :
  prev_workspace o = None -> bypass deref o = false.
Proof. intro Prev. unfold bypass. rewrite Prev. reflexivity. Qed.

Lemma render_no_bypass_fullscreen (o : Output) :
  enabled (wlr_output o) = true ->
  bypass deref o = false ->
  ctx_fullscreen_view (context (render deref visible_views o)) = None.
Proof.
  intros En B. unfold render. rewrite En, B. simpl.
  assert (P : forall a c, ctx_fullscreen_view (append_prev deref visible_views o a c)
                          = ctx_fullscreen_view c).
  { intros a c. unfold append_prev. destruct (prev_workspace o); [|reflexivity].
    destruct (Qlt_bool 0 (1 - a)); reflexivity. }
  assert (C : forall a q c, ctx_fullscreen_view (append_cur deref visible_views o a q c)
                            = ctx_fullscreen_view c).
  { intros a q c. unfold append_cur. destruct (Qlt_bool 0 a); reflexivity. }
  destruct (Qlt_bool (advance o) 1); simpl; rewrite C, P; reflexivity.
Qed.

End NoBypass.

(** ** Output::render: what a batch entry can be *)

Section BatchEntries.

Variable deref : ws_ptr -> Workspace.
Variable visible_views : Workspace -> list View.

(** X2.  With no previous workspace (a null [prev_workspace]) a frame
    emits the visible views of the active workspace only, each with its
    opacity times the blend factor and its x raised by [W * (1 - a)], never
    negated; [prev_workspace] stays null until the blend factor reaches
    1. *)
Theorem render_without_previous (o : Output) :
  enabled (wlr_output o) = true ->
  prev_workspace o = None ->
  0 <= ws_alpha o ->
  let o' := render deref visible_views o in
  let a := ws_alpha o' in
  let W := inject_Z (out_width (wlr_output o)) in
  ctx_views (context o') =
    map (fun v =>
           (v, mkRenderData
                 (mkLayout (view_x v + W * (1 - a)) (view_y v)
                           (inject_Z (view_width v)) (inject_Z (view_height v))
                           (view_rotation v))
                 (view_alpha v * a)))
        (visible_views (deref (workspace o)))
  /\ ctx_fullscreen_view (context o') = None
  /\ (a < 1 -> prev_workspace o' = None)
  /\ (1 <= a -> prev_workspace o' = Some (workspace o)).
Proof.
  intros En Prev Pos o' a W.
  assert (B : bypass deref o = false) by (apply bypass_not_taken_null; exact Prev).
  assert (Ea : a = advance o) by (apply render_ws_alpha; exact En).
  assert (Pa : 0 < a) by (rewrite Ea; apply advance_pos; exact Pos).
  destruct (render_views_no_bypass deref visible_views o En B) as [V P].
  fold o' in V, P. rewrite <- Ea in V, P.
  split; [|split; [|split]].
  - rewrite V. unfold append_prev, append_cur, finish_prev. rewrite Prev.
    assert (L : Qlt_bool 0 a = true) by (apply Qlt_bool_iff; exact Pa).
    rewrite L. simpl. fold W.
    destruct (Qle_bool 1 a); [rewrite Z.ltb_irrefl|]; reflexivity.
  - apply render_no_bypass_fullscreen; assumption.
  - intro L. rewrite P. unfold finish_prev.
    apply Qle_bool_false in L. rewrite L. exact Prev.
  - intro L. rewrite P. unfold finish_prev.
    apply Qle_bool_iff in L. rewrite L. reflexivity.
Qed.

Lemma render_entry_shape (o : Output) (e : View * RenderData) :
  enabled (wlr_output o) = true ->
  0 <= ws_alpha o ->
  In e (ctx_views (context (render deref visible_views o))) ->
  let W := inject_Z (out_width (wlr_output o)) in
  exists k s,
    0 <= k <= 1 /\ 0 <= s <= 1
    /\ (e = prev_entry k (W * s) (fst e) \/ e = prev_entry k (- (W * s)) (fst e)
        \/ e = cur_entry k (W * s) (fst e) \/ e = cur_entry k (- (W * s)) (fst e)).
Proof.
  intros En Pos I W.
  pose proof (advance_range o Pos) as R.
  destruct (bypass deref o) eqn:B.
  - destruct (render_bypass_context deref visible_views o En B) as (V & _).
    rewrite V in I. destruct I.
  - destruct (render_views_no_bypass deref visible_views o En B) as [V _].
    rewrite V in I. clear V.
    set (a := advance o) in *.
    unfold append_cur in I.
    assert (S1 : forall c, In e (ctx_views (append_prev deref visible_views o a c)) ->
                 In e (ctx_views c) \/
                 (0 < 1 - a /\ exists v, e = prev_entry (1 - a) (W * a) v
                                         \/ e = prev_entry (1 - a) (- (W * a)) v)).
    { intros c Ic. unfold append_prev in Ic.
      destruct (prev_workspace o) as [p|]; [|left; exact Ic].
      destruct (Qlt_bool 0 (1 - a)) eqn:L; [|left; exact Ic].
      apply Qlt_bool_iff in L. simpl in Ic. apply in_app_or in Ic.
      destruct Ic as [Ic|Ic]; [left; exact Ic|]. right. split; [exact L|].
      apply in_map_iff in Ic. destruct Ic as (v & Ev & _). exists v.
      fold W in Ev.
      destruct (index (deref (workspace o)) <? index (deref p))%Z;
        [right | left]; symmetry; exact Ev. }
    assert (Fst1 : forall k dx v, fst (prev_entry k dx v) = v) by reflexivity.
    assert (Fst2 : forall k dx v, fst (cur_entry k dx v) = v) by reflexivity.
    assert (FromPrev : In e (ctx_views (append_prev deref visible_views o a
                                          (reset (context o)))) ->
            exists k s, 0 <= k <= 1 /\ 0 <= s <= 1
              /\ (e = prev_entry k (W * s) (fst e) \/ e = prev_entry k (- (W * s)) (fst e)
                  \/ e = cur_entry k (W * s) (fst e)
                  \/ e = cur_entry k (- (W * s)) (fst e))).
    { intro Ip. destruct (S1 _ Ip) as [[]|(L & v & Ev)].
      exists (1 - a), a. split; [lra|]. split; [lra|].
      destruct Ev as [Ev|Ev]; rewrite Ev, Fst1; auto. }
    destruct (Qlt_bool 0 a) eqn:L; [|apply FromPrev; exact I].
    simpl in I. apply in_app_or in I. destruct I as [I|I]; [apply FromPrev; exact I|].
    apply in_map_iff in I. destruct I as (v & Ev & _). fold W in Ev.
    exists a, (1 - a). split; [lra|]. split; [lra|].
    destruct (finish_prev o a) as [q|].
    + destruct (index (deref (workspace o)) <? index (deref q))%Z;
        rewrite <- Ev, Fst2; auto.
    + rewrite <- Ev, Fst2; auto.
Qed.

(** X3.  Every entry of a batch keeps the y, width, height and rotation of
    its view; its opacity lies between 0 and the view's own opacity, and
    its x is at most one output width away from the view's x. *)
Theorem render_entries_bounded (o : Output) (v : View) (d : RenderData) :
  enabled (wlr_output o) = true ->
  0 <= ws_alpha o ->
  In (v, d) (ctx_views (context (render deref visible_views o))) ->
  let W := inject_Z (out_width (wlr_output o)) in
  y (layout d) = view_y v
  /\ width (layout d) = inject_Z (view_width v)
  /\ height (layout d) = inject_Z (view_height v)
  /\ rotation (layout d) = view_rotation v
  /\ (0 <= view_alpha v -> 0 <= alpha d /\ alpha d <= view_alpha v)
  /\ (0 <= W -> view_x v - W <= x (layout d) /\ x (layout d) <= view_x v + W).
Proof.
  intros En Pos I W.
  destruct (render_entry_shape o (v, d) En Pos I) as (k & s & K & S & E).
  fold W in E. simpl in E.
  assert (Ws : 0 <= W -> 0 <= W * s /\ W * s <= W).
  { intro Wp. split; nra. }
  assert (Ak : 0 <= view_alpha v -> 0 <= view_alpha v * k /\ view_alpha v * k <= view_alpha v).
  { intro Ap. split; nra. }
  destruct E as [E|[E|[E|E]]]; inversion E; subst d; simpl;
    do 4 (split; [reflexivity|]);
    (split;
     [intro Ap; destruct (Ak Ap); split; lra
     |intro Wp; destruct (Ws Wp); split; lra]).
Qed.

End BatchEntries.

Lemma render_without_previous_witness :
  (enabled (wlr_output first_blend) = true
   /\ prev_workspace first_blend = None
   /\ 0 <= ws_alpha first_blend)
  /\ ctx_fullscreen_view (context (render sample_deref visible_views_spec first_blend))
     = None
  /\ prev_workspace (render sample_deref visible_views_spec first_blend) = None.
Proof.
  assert (H1 : enabled (wlr_output first_blend) = true) by reflexivity.
  assert (H2 : prev_workspace first_blend = None) by reflexivity.
  assert (H3 : 0 <= ws_alpha first_blend) by closed_le.
  split; [repeat split; assumption|].
  destruct (render_without_previous sample_deref visible_views_spec first_blend
              H1 H2 H3) as (_ & F & P & _).
  split; [exact F|]. apply P. closed_lt.
Defined.

Lemma render_entries_bounded_witness :
  let d := mkRenderData (mkLayout (0 - - (inject_Z 1000 * ((2 # 10) + (1 # 10))))
                           0 (inject_Z 800) (inject_Z 600) 0)
                        (1 * (1 - ((2 # 10) + (1 # 10)))) in
  (enabled (wlr_output switching_2_to_0) = true
   /\ 0 <= ws_alpha switching_2_to_0
   /\ In (view_b, d)
        (ctx_views (context (render sample_deref visible_views_spec switching_2_to_0))))
  /\ (0 <= alpha d /\ alpha d <= view_alpha view_b)
  /\ (view_x view_b - 1000 <= x (layout d) /\ x (layout d) <= view_x view_b + 1000).
Proof.
  intro d.
  assert (H1 : enabled (wlr_output switching_2_to_0) = true) by reflexivity.
  assert (H2 : 0 <= ws_alpha switching_2_to_0) by closed_le.
  assert (H3 : In (view_b, d)
                 (ctx_views (context (render sample_deref visible_views_spec
                                        switching_2_to_0))))
    by (left; reflexivity).
  split; [repeat split; assumption|].
  destruct (render_entries_bounded sample_deref visible_views_spec switching_2_to_0
              view_b d H1 H2 H3) as (_ & _ & _ & _ & A & X).
  split; [apply A; closed_le | apply X; closed_le].
Defined.

(** ** set_mode: what it can select *)

Lemma last_of_in {A} (l : list A) (a : A) : last_of l = Some a -> In a l.
Proof.
  unfold last_of. intro H. destruct (rev l) as [|b r] eqn:E; [discriminate|].
  injection H as ->. apply in_rev. rewrite E. left. reflexivity.
Qed.

Lemma negotiated_mode_sound (oc : ConfigOutput) (mhz : Z) (ms : list output_mode)
  (m : output_mode) :
  negotiated_mode oc mhz ms = Some m -> In m ms /\ size_matches oc m = true.
Proof.
  unfold negotiated_mode.
  destruct (find (exact_match oc mhz) ms) as [e|] eqn:F; intro H.
  - injection H as ->. apply find_some in F. destruct F as [I E].
    split; [exact I|]. unfold exact_match in E.
    apply andb_true_iff in E. tauto.
  - apply last_of_in in H. apply filter_In in H. exact H.
Qed.

Lemma negotiated_mode_exact (oc : ConfigOutput) (mhz : Z) (ms : list output_mode)
  (m : output_mode) :
  In m ms -> exact_match oc mhz m = true ->
  exists b, negotiated_mode oc mhz ms = Some b /\ mode_refresh b = mhz.
Proof.
  intros I E. unfold negotiated_mode.
  destruct (find (exact_match oc mhz) ms) as [e|] eqn:F.
  - exists e. split; [reflexivity|]. apply find_some in F. destruct F as [_ X].
    unfold exact_match, refresh_matches in X. apply andb_true_iff in X.
    apply Z.eqb_eq. tauto.
  - rewrite (find_none _ _ F m I) in E. discriminate.
Qed.

(** X4.  A mode [set_mode] selects is one of the advertised modes and has
    the configured width and height; a custom mode is requested only for
    an output that advertises none; at most one mode request is made; and
    when some advertised mode has the configured size and refresh, the
    selected mode has the configured refresh. *)
Theorem set_mode_selection_sound (output : wlr_output_t) (oc : ConfigOutput) :
  (forall m, In (wlr_output_set_mode m) (set_mode output oc) ->
             In m (modes output) /\ size_matches oc m = true)
  /\ (forall w h r, In (wlr_output_set_custom_mode w h r) (set_mode output oc) ->
                    modes output = []
                    /\ w = cfg_width (mode oc) /\ h = cfg_height (mode oc)
                    /\ r = config_mhz oc)
  /\ (List.length (mode_requests (set_mode output oc)) <= 1)%nat
  /\ (forall m, In m (modes output) ->
                exact_match oc (config_mhz oc) m = true ->
                exists b, In (wlr_output_set_mode b) (set_mode output oc)
                          /\ mode_refresh b = config_mhz oc).
Proof.
  rewrite set_mode_closed_form.
  destruct (modes output) as [|m0 ms] eqn:M.
  - split; [|split; [|split]].
    + intros m [H|[]]. discriminate H.
    + intros w h r [H|[]]. injection H as <- <- <-. repeat split; reflexivity.
    + simpl. lia.
    + intros m [].
  - destruct (negotiated_mode oc (config_mhz oc) (m0 :: ms)) as [best|] eqn:N.
    + split; [|split; [|split]].
      * intros m [H|[H|[]]]; [discriminate H|]. injection H as <-.
        eapply negotiated_mode_sound. exact N.
      * intros w h r [H|[H|[]]]; discriminate H.
      * simpl. lia.
      * intros m I E.
        destruct (negotiated_mode_exact oc (config_mhz oc) (m0 :: ms) m I E)
          as (b & Nb & R).
        exists b. split; [|exact R]. rewrite N in Nb. injection Nb as ->.
        right. left. reflexivity.
    + split; [|split; [|split]].
      * intros m [H|[]]. discriminate H.
      * intros w h r [H|[]]. discriminate H.
      * simpl. lia.
      * intros m I E.
        destruct (negotiated_mode_exact oc (config_mhz oc) (m0 :: ms) m I E)
          as (b & Nb & _).
        rewrite N in Nb. discriminate Nb.
Qed.

(** ** Output::Output: placement and custom modes *)

Lemma filter_set_mode (f : BackendCall -> bool) (wlr : wlr_output_t) (oc : ConfigOutput) :
  (forall m, f (wlr_output_set_mode m) = false) ->
  (forall w h r, f (wlr_output_set_custom_mode w h r) = false) ->
  (forall s, f (LOGE s) = false) ->
  (forall s, f (LOGD s) = false) ->
  filter f (set_mode wlr oc) = [].
Proof.
  intros Hm Hc He Hd. unfold set_mode.
  destruct (modes wlr); simpl; [rewrite Hc; reflexivity|].
  match goal with |- context [match ?s with Some _ => _ | None => _ end] => destruct s end;
    simpl; rewrite ?Hm, ?Hd, ?He; reflexivity.
Qed.

Lemma filter_preferred_mode (f : BackendCall -> bool) (wlr : wlr_output_t) :
  (forall m, f (wlr_output_set_mode m) = false) ->
  filter f (preferred_mode wlr) = [].
Proof.
  intro Hm. unfold preferred_mode. destruct (modes wlr); simpl; [reflexivity|].
  rewrite Hm. reflexivity.
Qed.

Lemma filter_add_modes (f : BackendCall -> bool) (ms : list output_mode) :
  (forall m, f (wlr_drm_connector_add_mode m) = false) ->
  filter f (map wlr_drm_connector_add_mode ms) = [].
Proof.
  intro H. induction ms as [|m ms IH]; simpl; [reflexivity|].
  rewrite H. exact IH.
Qed.

Lemma filter_added (f : BackendCall -> bool)
  (add : wlr_output_t -> output_mode -> wlr_output_t)
  (wlr : wlr_output_t) (oc : ConfigOutput) :
  (forall m, f (wlr_drm_connector_add_mode m) = false) ->
  (forall s, f (LOGE s) = false) ->
  filter f (snd (add_custom_modes add wlr oc)) = [].
Proof.
  intros Ha He. unfold add_custom_modes.
  destruct (is_drm wlr); simpl; [apply filter_add_modes; exact Ha|].
  destruct (cfg_modes oc); simpl; [rewrite He|]; reflexivity.
Qed.

Ltac ctor_filter :=
  unfold Output_ctor, apply_config;
  repeat rewrite filter_app; simpl;
  rewrite filter_preferred_mode by reflexivity.

(** X5.  The constructor adds the output to the layout exactly once - at
    the configured position, or automatically when it has no
    configuration - unless its configuration disables it; a disabled
    output is not placed, gets no scale or transform, and is the only one
    to receive [wlr_output_enable(false)]. *)
Theorem Output_ctor_placement
  (add : wlr_output_t -> output_mode -> wlr_output_t)
  (wlr : wlr_output_t) (cfg : option ConfigOutput) :
  let t := Output_ctor add wlr cfg in
  filter is_layout_request t =
    match cfg with
    | None => [wlr_output_layout_add_auto]
    | Some oc =>
        if enable oc then [wlr_output_layout_add (cfg_x oc) (cfg_y oc)] else []
    end
  /\ filter is_enable_request t =
     match cfg with
     | Some oc => if enable oc then [] else [wlr_output_enable false]
     | None => []
     end
  /\ filter is_scale_or_transform t =
     match cfg with
     | Some oc =>
         if enable oc
         then [wlr_output_set_scale (scale oc); wlr_output_set_transform (transform oc)]
         else []
     | None => []
     end.
Proof.
  cbv zeta.
  assert (K : forall f,
             (forall m, f (wlr_output_set_mode m) = false) ->
             (forall w h r, f (wlr_output_set_custom_mode w h r) = false) ->
             (forall m, f (wlr_drm_connector_add_mode m) = false) ->
             (forall s, f (LOGE s) = false) ->
             (forall s, f (LOGD s) = false) ->
             f arrange_layers = false -> f context_damage_whole = false ->
             filter f (Output_ctor add wlr cfg) =
               match cfg with
               | None => filter f [wlr_output_layout_add_auto]
               | Some oc =>
                   if enable oc
                   then filter f [wlr_output_set_scale (scale oc);
                                  wlr_output_set_transform (transform oc);
                                  wlr_output_layout_add (cfg_x oc) (cfg_y oc)]
                   else filter f [wlr_output_enable false]
               end).
  { intros f Hm Hc Ha He Hd Hl Hw.
    unfold Output_ctor, apply_config. repeat rewrite filter_app.
    rewrite (filter_preferred_mode f wlr Hm).
    assert (T : filter f [arrange_layers; context_damage_whole] = []).
    { simpl. rewrite Hl, Hw. reflexivity. }
    assert (L : filter f [LOGD "Output '{}' added"; LOGD "'{} {} {}' {}mm x {}mm"] = []).
    { simpl. rewrite !Hd. reflexivity. }
    rewrite T, L, app_nil_r. simpl.
    destruct cfg as [oc|]; [|reflexivity].
    destruct (enable oc); [|reflexivity].
    pose proof (filter_added f add wlr oc Ha He) as A.
    destruct (add_custom_modes add wlr oc) as [wlr' added]. simpl in A.
    repeat rewrite filter_app. rewrite A. simpl app.
    destruct (negb (cfg_width (mode oc) =? 0)%Z);
      [rewrite (filter_set_mode f wlr' oc Hm Hc He Hd)|]; reflexivity. }
  split; [|split]; rewrite K by reflexivity;
    (destruct cfg as [oc|]; [|reflexivity]); destruct (enable oc); reflexivity.
Qed.

(** X6.  Custom modes are installed only through the DRM backend: the
    constructor issues one [wlr_drm_connector_add_mode] per configured
    custom mode, in order, when the configuration is enabled and the
    output is a DRM output, and none in every other case. *)
Theorem Output_ctor_custom_modes
  (add : wlr_output_t -> output_mode -> wlr_output_t)
  (wlr : wlr_output_t) (cfg : option ConfigOutput) :
  filter is_add_mode_request (Output_ctor add wlr cfg) =
    match cfg with
    | Some oc =>
        if enable oc && is_drm wlr
        then map wlr_drm_connector_add_mode (cfg_modes oc)
        else []
    | None => []
    end.
Proof.
  ctor_filter.
  destruct cfg as [oc|]; [|reflexivity].
  destruct (enable oc); [|reflexivity].
  assert (A : filter is_add_mode_request (snd (add_custom_modes add wlr oc))
              = if is_drm wlr then map wlr_drm_connector_add_mode (cfg_modes oc)
                else []).
  { unfold add_custom_modes. destruct (is_drm wlr); simpl.
    - induction (cfg_modes oc) as [|m ms IH]; simpl; [reflexivity|].
      rewrite IH. reflexivity.
    - destruct (cfg_modes oc); reflexivity. }
  destruct (add_custom_modes add wlr oc) as [wlr' added]. simpl in A.
  repeat rewrite filter_app.
  assert (S : filter is_add_mode_request
                (if negb (cfg_width (mode oc) =? 0)%Z then set_mode wlr' oc else []) = []).
  { destruct (negb (cfg_width (mode oc) =? 0)%Z);
      [apply filter_set_mode; reflexivity | reflexivity]. }
  rewrite S, A. simpl. repeat rewrite app_nil_r. reflexivity.
Qed.

(** ** cloth::kbd::Client: which global each proxy ends up bound to *)

Section KbdBinding.

Variables vkm ls st : string.

Lemma on_global_vkm (c : Client) (g : Global) :
  String.eqb (g_interface g) vkm = true ->
  on_global vkm ls st c g =
    (mkClient (Some (bound_to g)) (layer_shell c) (seat c) (seat_on_name c),
     [registry_bind (g_name g) VirtualKeyboardManager (g_version g)]).
Proof. intro E. unfold on_global. rewrite E. reflexivity. Qed.

Lemma on_global_ls (c : Client) (g : Global) :
  String.eqb (g_interface g) vkm = false ->
  String.eqb (g_interface g) ls = true ->
  on_global vkm ls st c g =
    (mkClient (virtual_keyboard_manager c) (Some (bound_to g)) (seat c) (seat_on_name c),
     [registry_bind (g_name g) LayerShell (g_version g)]).
Proof. intros E1 E2. unfold on_global. rewrite E1, E2. reflexivity. Qed.

Lemma on_global_st (c : Client) (g : Global) :
  String.eqb (g_interface g) vkm = false ->
  String.eqb (g_interface g) ls = false ->
  String.eqb (g_interface g) st = true ->
  on_global vkm ls st c g =
    match seat c with
    | None =>
        (mkClient (virtual_keyboard_manager c) (layer_shell c) (Some (bound_to g)) true,
         [registry_bind (g_name g) Seat (g_version g)])
    | Some _ =>
        (mkClient (virtual_keyboard_manager c) (layer_shell c) (seat c) true, [])
    end.
Proof. intros E1 E2 E3. unfold on_global. rewrite E1, E2, E3. reflexivity. Qed.

Lemma on_global_other (c : Client) (g : Global) :
  String.eqb (g_interface g) vkm = false ->
  String.eqb (g_interface g) ls = false ->
  String.eqb (g_interface g) st = false ->
  on_global vkm ls st c g = (c, []).
Proof. intros E1 E2 E3. unfold on_global. rewrite E1, E2, E3. reflexivity. Qed.

Lemma eqb_other (a b c : string) :
  b <> c -> String.eqb a b = true -> String.eqb a c = false.
Proof.
  intros N E. apply String.eqb_eq in E. subst a. apply String.eqb_neq. exact N.
Qed.

(** The seat proxy through a run of the handler. *)
Lemma bind_interfaces_seat (c : Client) (gs : list Global) :
  vkm <> st -> ls <> st ->
  seat (fst (bind_interfaces vkm ls st c gs)) =
    match seat c with
    | Some b => Some b
    | None => option_map bound_to (hd_error (announcements_of st gs))
    end
  /\ binds_of Seat (snd (bind_interfaces vkm ls st c gs)) =
     match seat c with
     | Some _ => 0%nat
     | None => if announced st gs then 1%nat else 0%nat
     end.
Proof.
  intros D2 D3. revert c. induction gs as [|g gs IH]; intro c; simpl.
  - destruct (seat c); split; reflexivity.
  - destruct (String.eqb (g_interface g) st) eqn:Es.
    + assert (Ev : String.eqb (g_interface g) vkm = false).
      { apply String.eqb_eq in Es. rewrite Es. apply String.eqb_neq. congruence. }
      assert (El : String.eqb (g_interface g) ls = false).
      { apply String.eqb_eq in Es. rewrite Es. apply String.eqb_neq. congruence. }
      rewrite (on_global_st c g Ev El Es).
      destruct (seat c) as [b|] eqn:S.
      * specialize (IH (mkClient (virtual_keyboard_manager c) (layer_shell c) (Some b) true)).
        destruct (bind_interfaces vkm ls st _ gs) as [c2 calls2]. simpl in IH |- *.
        exact IH.
      * specialize (IH (mkClient (virtual_keyboard_manager c) (layer_shell c)
                          (Some (bound_to g)) true)).
        destruct (bind_interfaces vkm ls st _ gs) as [c2 calls2]. simpl in IH |- *.
        destruct IH as [I1 I2]. split; [exact I1|].
        unfold binds_of in *. simpl. rewrite I2. reflexivity.
    + assert (X : exists c1 calls1,
                 on_global vkm ls st c g = (c1, calls1)
                 /\ seat c1 = seat c /\ binds_of Seat calls1 = 0%nat).
      { unfold on_global. rewrite Es.
        destruct (String.eqb (g_interface g) vkm); [eexists; eexists; repeat split|].
        destruct (String.eqb (g_interface g) ls); eexists; eexists; repeat split. }
      destruct X as (c1 & calls1 & E & S1 & B1). rewrite E.
      specialize (IH c1).
      destruct (bind_interfaces vkm ls st c1 gs) as [c2 calls2]. simpl in IH |- *.
      rewrite S1 in IH. destruct IH as [I1 I2]. split; [exact I1|].
      rewrite binds_of_app, B1, I2. reflexivity.
Qed.

(** X7.  The seat is bound at most once, to the first seat global
    announced: later seat announcements, and any seat announcement made
    when a seat is already bound, issue no bind and leave the proxy as it
    is. *)
Theorem seat_bound_once_to_first (c : Client) (gs : list Global) :
  vkm <> st -> ls <> st ->
  let r := bind_interfaces vkm ls st c gs in
  (binds_of Seat (snd r) <= 1)%nat
  /\ (forall b, seat c = Some b ->
                seat (fst r) = Some b /\ binds_of Seat (snd r) = 0%nat)
  /\ (seat c = None ->
      seat (fst r) = option_map bound_to (hd_error (announcements_of st gs))
      /\ (binds_of Seat (snd r) = 1%nat <-> announced st gs = true)).
Proof.
  intros D2 D3 r.
  destruct (bind_interfaces_seat c gs D2 D3) as [S B]. fold r in S, B.
  split; [|split].
  - rewrite B. destruct (seat c); [lia|]. destruct (announced st gs); lia.
  - intros b E. rewrite E in S, B. split; assumption.
  - intro E. rewrite E in S, B. split; [exact S|].
    rewrite B. destruct (announced st gs); split; intro H;
      try reflexivity; try discriminate.
Qed.

(** The layer-shell proxy through a run of the handler. *)
Lemma bind_interfaces_layer_shell (c : Client) (gs : list Global) :
  vkm <> ls ->
  layer_shell (fst (bind_interfaces vkm ls st c gs)) =
    match last_of (announcements_of ls gs) with
    | Some g => Some (bound_to g)
    | None => layer_shell c
    end
  /\ binds_of LayerShell (snd (bind_interfaces vkm ls st c gs)) =
     List.length (announcements_of ls gs).
Proof.
  intro D1. revert c. induction gs as [|g gs IH]; intro c; simpl.
  - split; reflexivity.
  - destruct (String.eqb (g_interface g) ls) eqn:El.
    + assert (Ev : String.eqb (g_interface g) vkm = false).
      { apply String.eqb_eq in El. rewrite El. apply String.eqb_neq. congruence. }
      rewrite (on_global_ls c g Ev El).
      specialize (IH (mkClient (virtual_keyboard_manager c) (Some (bound_to g))
                        (seat c) (seat_on_name c))).
      destruct (bind_interfaces vkm ls st _ gs) as [c2 calls2]. simpl in IH |- *.
      destruct IH as [I1 I2]. rewrite last_of_cons. split.
      * rewrite I1. destruct (last_of (announcements_of ls gs)); reflexivity.
      * unfold binds_of in *. simpl. rewrite I2. reflexivity.
    + assert (X : exists c1 calls1,
                 on_global vkm ls st c g = (c1, calls1)
                 /\ layer_shell c1 = layer_shell c
                 /\ binds_of LayerShell calls1 = 0%nat).
      { unfold on_global. rewrite El.
        destruct (String.eqb (g_interface g) vkm); [eexists; eexists; repeat split|].
        destruct (String.eqb (g_interface g) st); [|eexists; eexists; repeat split].
        destruct (seat c); eexists; eexists; repeat split. }
      destruct X as (c1 & calls1 & E & S1 & B1). rewrite E.
      specialize (IH c1).
      destruct (bind_interfaces vkm ls st c1 gs) as [c2 calls2]. simpl in IH |- *.
      rewrite S1 in IH. destruct IH as [I1 I2]. split; [exact I1|].
      rewrite binds_of_app, B1, I2. reflexivity.
Qed.

(** The virtual-keyboard-manager proxy through a run of the handler. *)
Lemma bind_interfaces_vkm (c : Client) (gs : list Global) :
  virtual_keyboard_manager (fst (bind_interfaces vkm ls st c gs)) =
    match last_of (announcements_of vkm gs) with
    | Some g => Some (bound_to g)
    | None => virtual_keyboard_manager c
    end
  /\ binds_of VirtualKeyboardManager (snd (bind_interfaces vkm ls st c gs)) =
     List.length (announcements_of vkm gs).
Proof.
  revert c. induction gs as [|g gs IH]; intro c; simpl.
  - split; reflexivity.
  - destruct (String.eqb (g_interface g) vkm) eqn:Ev.
    + rewrite (on_global_vkm c g Ev).
      specialize (IH (mkClient (Some (bound_to g)) (layer_shell c)
                        (seat c) (seat_on_name c))).
      destruct (bind_interfaces vkm ls st _ gs) as [c2 calls2]. simpl in IH |- *.
      destruct IH as [I1 I2]. rewrite last_of_cons. split.
      * rewrite I1. destruct (last_of (announcements_of vkm gs)); reflexivity.
      * unfold binds_of in *. simpl. rewrite I2. reflexivity.
    + assert (X : exists c1 calls1,
                 on_global vkm ls st c g = (c1, calls1)
                 /\ virtual_keyboard_manager c1 = virtual_keyboard_manager c
                 /\ binds_of VirtualKeyboardManager calls1 = 0%nat).
      { unfold on_global. rewrite Ev.
        destruct (String.eqb (g_interface g) ls); [eexists; eexists; repeat split|].
        destruct (String.eqb (g_interface g) st); [|eexists; eexists; repeat split].
        destruct (seat c); eexists; eexists; repeat split. }
      destruct X as (c1 & calls1 & E & S1 & B1). rewrite E.
      specialize (IH c1).
      destruct (bind_interfaces vkm ls st c1 gs) as [c2 calls2]. simpl in IH |- *.
      rewrite S1 in IH. destruct IH as [I1 I2]. split; [exact I1|].
      rewrite binds_of_app, B1, I2. reflexivity.
Qed.

(** X8.  The virtual-keyboard-manager and layer-shell proxies are bound
    again on every announcement of their interface: the number of binds
    is the number of announcements, and the proxy ends up bound to the
    last global announced (the earlier bindings are overwritten). *)
Theorem managers_rebound_on_every_announcement (c : Client) (gs : list Global) :
  vkm <> ls ->
  let r := bind_interfaces vkm ls st c gs in
  binds_of VirtualKeyboardManager (snd r) = List.length (announcements_of vkm gs)
  /\ binds_of LayerShell (snd r) = List.length (announcements_of ls gs)
  /\ virtual_keyboard_manager (fst r) =
     match last_of (announcements_of vkm gs) with
     | Some g => Some (bound_to g)
     | None => virtual_keyboard_manager c
     end
  /\ layer_shell (fst r) =
     match last_of (announcements_of ls gs) with
     | Some g => Some (bound_to g)
     | None => layer_shell c
     end.
Proof.
  intros D1 r.
  destruct (bind_interfaces_vkm c gs) as [V1 V2].
  destruct (bind_interfaces_layer_shell c gs D1) as [L1 L2].
  fold r in V1, V2, L1, L2. repeat split; assumption.
Qed.

(** X9.  Globals of any other interface are ignored: they change nothing
    and cause no request, so the handler's result depends only on the
    announcements of the three interfaces it knows. *)
Theorem other_globals_ignored (c : Client) (gs : list Global) :
  let known g :=
    String.eqb (g_interface g) vkm || String.eqb (g_interface g) ls
    || String.eqb (g_interface g) st in
  bind_interfaces vkm ls st c gs = bind_interfaces vkm ls st c (filter known gs).
Proof.
  intro known. revert c. induction gs as [|g gs IH]; intro c; simpl; [reflexivity|].
  destruct (known g) eqn:K.
  - simpl. destruct (on_global vkm ls st c g) as [c1 calls1].
    rewrite IH. reflexivity.
  - unfold known in K. apply orb_false_iff in K. destruct K as [K E3].
    apply orb_false_iff in K. destruct K as [E1 E2].
    rewrite (on_global_other c g E1 E2 E3).
    rewrite <- IH. destruct (bind_interfaces vkm ls st c gs). reflexivity.
Qed.

Lemma last_of_some_iff {A} (l : list A) : is_some (last_of l) = negb (match l with [] => true | _ => false end).
Proof.
  destruct l as [|a l]; [reflexivity|]. rewrite last_of_cons.
  destruct (last_of l); reflexivity.
Qed.

Lemma announced_filter (i : string) (gs : list Global) :
  announced i gs = is_some (last_of (announcements_of i gs)).
Proof.
  rewrite last_of_some_iff. unfold announced, announcements_of.
  induction gs as [|g gs IH]; simpl; [reflexivity|].
  destruct (String.eqb (g_interface g) i); simpl; [reflexivity | exact IH].
Qed.

Lemma announced_hd (i : string) (gs : list Global) :
  announced i gs = is_some (hd_error (announcements_of i gs)).
Proof.
  unfold announced, announcements_of.
  induction gs as [|g gs IH]; simpl; [reflexivity|].
  destruct (String.eqb (g_interface g) i); simpl; [reflexivity | exact IH].
Qed.

(** X10.  [Client::main] returns 1 without touching the registry when the
    command line is wrong or help was asked for.  Otherwise, starting
    with nothing bound, it runs the keyboard (and returns 0) exactly when
    each of the three interfaces was announced at least once; if any is
    missing it logs an error and returns 1 without creating the
    keyboard. *)
Theorem Client_main_exit_code (parse_ok show_help : bool) (gs : list Global) :
  vkm <> ls -> vkm <> st -> ls <> st ->
  let r := Client_main vkm ls st parse_ok show_help no_globals_bound gs in
  (snd r = 0%Z \/ snd r = 1%Z)
  /\ (snd r = 0%Z <->
      parse_ok = true /\ show_help = false
      /\ announced vkm gs = true /\ announced ls gs = true /\ announced st gs = true)
  /\ (In main_create_keyboard (fst r) <-> snd r = 0%Z)
  /\ (parse_ok = false \/ show_help = true ->
      forall b, ~ In (main_bind b) (fst r)).
Proof.
  intros D1 D2 D3 r. unfold r, Client_main.
  destruct parse_ok; simpl.
  2:{ split; [right; reflexivity|]. split; [split; [discriminate | intros (H & _); discriminate]|].
      split; [split; [intros [H|[]]; discriminate | discriminate]|].
      intros _ b [H|[]]. discriminate. }
  destruct show_help; simpl.
  { split; [right; reflexivity|]. split; [split; [discriminate | intros (_ & H & _); discriminate]|].
    split; [split; [intros [H|[]]; discriminate | discriminate]|].
    intros _ b [H|[]]. discriminate. }
  destruct (bind_interfaces_seat no_globals_bound gs D2 D3) as [S _].
  destruct (bind_interfaces_vkm no_globals_bound gs) as [V _].
  destruct (bind_interfaces_layer_shell no_globals_bound gs D1) as [L _].
  destruct (bind_interfaces vkm ls st no_globals_bound gs) as [c' calls].
  simpl in S, V, L. rewrite S, V, L.
  rewrite (announced_hd st), (announced_filter vkm), (announced_filter ls).
  assert (NoKbd : forall l, ~ In main_create_keyboard (map main_bind l)).
  { intros l I. apply in_map_iff in I. destruct I as (x & E & _). discriminate E. }
  destruct (hd_error (announcements_of st gs)),
           (last_of (announcements_of vkm gs)),
           (last_of (announcements_of ls gs)); simpl;
    (split; [auto|]);
    (split; [split; [try discriminate; auto | intros (_ & _ & A & B & C); try discriminate; auto]|]);
    (split; [|intros [H|H]; discriminate]);
    (split; [intro I; apply in_app_or in I; destruct I as [I|I];
             [exfalso; apply (NoKbd _ I) | try reflexivity;
              destruct I as [I|[]]; discriminate I]
            | try discriminate; intros _; apply in_or_app; right; left; reflexivity]).
Qed.

End KbdBinding.

Ltac names_differ := apply String.eqb_neq; reflexivity.

Lemma seat_bound_once_to_first_witness :
  (vkm_name <> seat_name /\ layer_shell_name <> seat_name)
  /\ seat (fst (bind_interfaces vkm_name layer_shell_name seat_name
                  no_globals_bound sample_globals))
     = Some (mkBound 3 5)
  /\ (binds_of Seat (snd (bind_interfaces vkm_name layer_shell_name seat_name
                            no_globals_bound sample_globals)) <= 1)%nat.
Proof.
  assert (H1 : vkm_name <> seat_name) by names_differ.
  assert (H2 : layer_shell_name <> seat_name) by names_differ.
  split; [split; assumption|].
  destruct (seat_bound_once_to_first vkm_name layer_shell_name seat_name
              no_globals_bound sample_globals H1 H2) as (B & _ & F).
  split; [|exact B]. apply (proj1 (F eq_refl)).
Defined.

Lemma managers_rebound_on_every_announcement_witness :
  vkm_name <> layer_shell_name
  /\ binds_of LayerShell (snd (bind_interfaces vkm_name layer_shell_name seat_name
                                 no_globals_bound sample_globals)) = 2%nat
  /\ layer_shell (fst (bind_interfaces vkm_name layer_shell_name seat_name
                         no_globals_bound sample_globals))
     = Some (mkBound 5 2).
Proof.
  assert (H1 : vkm_name <> layer_shell_name) by names_differ.
  split; [exact H1|].
  destruct (managers_rebound_on_every_announcement vkm_name layer_shell_name seat_name
              no_globals_bound sample_globals H1) as (_ & B & _ & L).
  split; [exact B | exact L].
Defined.

Lemma Client_main_exit_code_witness :
  (vkm_name <> layer_shell_name /\ vkm_name <> seat_name
   /\ layer_shell_name <> seat_name)
  /\ snd (Client_main vkm_name layer_shell_name seat_name true false
            no_globals_bound sample_globals) = 0%Z
  /\ snd (Client_main vkm_name layer_shell_name seat_name true false
            no_globals_bound [mkGlobal 3 seat_name 5; mkGlobal 2 vkm_name 1]) <> 0%Z.
Proof.
  assert (H1 : vkm_name <> layer_shell_name) by names_differ.
  assert (H2 : vkm_name <> seat_name) by names_differ.
  assert (H3 : layer_shell_name <> seat_name) by names_differ.
  split; [repeat split; assumption|].
  split.
  - destruct (Client_main_exit_code vkm_name layer_shell_name seat_name true false
                sample_globals H1 H2 H3) as (_ & X & _).
    apply (proj2 X). repeat split; reflexivity.
  - intro E.
    destruct (Client_main_exit_code vkm_name layer_shell_name seat_name true false
                [mkGlobal 3 seat_name 5; mkGlobal 2 vkm_name 1] H1 H2 H3)
      as (_ & X & _).
    destruct (proj1 X E) as (_ & _ & _ & L & _). discriminate L.
Defined.

(** ** The desktop shell client: startup *)

Section ShellStartup.

Variables shell_if output_if : string.

Lemma shell_binds_of_app (p : ShellProxy) (s t : list ShellStep) :
  shell_binds_of p (s ++ t) = (shell_binds_of p s + shell_binds_of p t)%nat.
Proof. unfold shell_binds_of. rewrite filter_app. apply length_app. Qed.

Lemma shell_roundtrip_bound (d : ShellDesktop) (gs : list Global) :
  shell_if <> output_if ->
  is_some (sd_shell (fst (shell_roundtrip shell_if output_if d gs)))
    = is_some (sd_shell d) || announced shell_if gs
  /\ is_some (sd_output (fst (shell_roundtrip shell_if output_if d gs)))
     = is_some (sd_output d) || announced output_if gs
  /\ (forall msg, ~ In (shell_log_error msg)
                     (snd (shell_roundtrip shell_if output_if d gs)))
  /\ shell_binds_of DesktopShell (snd (shell_roundtrip shell_if output_if d gs))
     = List.length (announcements_of shell_if gs)
  /\ shell_binds_of ShellOutput (snd (shell_roundtrip shell_if output_if d gs))
     = List.length (announcements_of output_if gs).
Proof.
  intro D. revert d. induction gs as [|g gs IH]; intro d; simpl.
  - rewrite !orb_false_r. repeat split. intros msg [].
  - unfold shell_on_global.
    destruct (String.eqb (g_interface g) shell_if) eqn:Es.
    + assert (Eo : String.eqb (g_interface g) output_if = false).
      { apply String.eqb_eq in Es. rewrite Es. apply String.eqb_neq. exact D. }
      rewrite Eo.
      specialize (IH (mkShellDesktop (Some (bound_to g)) (sd_output d) true)).
      destruct (shell_roundtrip shell_if output_if _ gs) as [d2 t2].
      simpl in IH |- *. destruct IH as (I1 & I2 & I3 & I4 & I5).
      rewrite I1, I2. rewrite orb_true_r.
      split; [reflexivity|]. split; [reflexivity|]. split; [|split].
      * intros msg [H|[H|[H|H]]]; try discriminate H. exact (I3 msg H).
      * unfold shell_binds_of in *. simpl. rewrite I4. reflexivity.
      * unfold shell_binds_of in *. simpl. exact I5.
    + destruct (String.eqb (g_interface g) output_if) eqn:Eo.
      * specialize (IH (mkShellDesktop (sd_shell d) (Some (bound_to g))
                          (sd_shell_handlers d))).
        destruct (shell_roundtrip shell_if output_if _ gs) as [d2 t2].
        simpl in IH |- *. destruct IH as (I1 & I2 & I3 & I4 & I5).
        rewrite I1, I2. rewrite orb_true_r.
        split; [reflexivity|]. split; [reflexivity|]. split; [|split].
        -- intros msg [H|[H|H]]; try discriminate H. exact (I3 msg H).
        -- unfold shell_binds_of in *. simpl. exact I4.
        -- unfold shell_binds_of in *. simpl. rewrite I5. reflexivity.
      * specialize (IH d).
        destruct (shell_roundtrip shell_if output_if d gs) as [d2 t2].
        simpl in IH |- *. destruct IH as (I1 & I2 & I3 & I4 & I5).
        rewrite I1, I2.
        split; [reflexivity|]. split; [reflexivity|]. split; [|split].
        -- intros msg [H|H]; try discriminate H. exact (I3 msg H).
        -- unfold shell_binds_of in *. simpl. exact I4.
        -- unfold shell_binds_of in *. simpl. exact I5.
Qed.

(** X11.  In the desktop shell client's startup, starting with nothing
    bound, "could not find output or shell modules" is logged exactly when
    the shell or the output interface was never announced, which is
    exactly when one of the two proxies is still unbound at the test; both
    proxies are bound without a guard, once for every announcement of
    their interface. *)
Theorem shell_startup_missing_globals (display_ok : bool) (gs : list Global) :
  shell_if <> output_if ->
  let r := shell_startup shell_if output_if display_ok nothing_bound gs in
  (In (shell_log_error "could not find output or shell modules") (snd r) <->
   announced shell_if gs = false \/ announced output_if gs = false)
  /\ (sd_shell (fst r) = None <-> announced shell_if gs = false)
  /\ (sd_output (fst r) = None <-> announced output_if gs = false)
  /\ shell_binds_of DesktopShell (snd r) = List.length (announcements_of shell_if gs)
  /\ shell_binds_of ShellOutput (snd r) = List.length (announcements_of output_if gs).
Proof.
  intros D r. unfold r, shell_startup.
  destruct (shell_roundtrip_bound nothing_bound gs D) as (S & O & NoErr & B1 & B2).
  destruct (shell_roundtrip shell_if output_if nothing_bound gs) as [d' t].
  simpl in S, O, NoErr, B1, B2. simpl fst. simpl snd.
  assert (Sn : sd_shell d' = None <-> announced shell_if gs = false).
  { rewrite <- S. destruct (sd_shell d'); simpl; split; congruence. }
  assert (On : sd_output d' = None <-> announced output_if gs = false).
  { rewrite <- O. destruct (sd_output d'); simpl; split; congruence. }
  split; [|split; [exact Sn|split; [exact On|]]].
  - rewrite S, O.
    destruct (announced shell_if gs), (announced output_if gs); simpl.
    + split; [|intros [H|H]; discriminate H].
      intros [H|H]; [discriminate H|]. exfalso.
      apply in_app_or in H. destruct H as [H|H].
      * destruct display_ok; [destruct H | destruct H as [H|[]]; discriminate H].
      * apply in_app_or in H. destruct H as [H|H]; [exact (NoErr _ H)|].
        destruct H.
    + split; [intros _; right; reflexivity|]. intros _. right.
      apply in_or_app. right. apply in_or_app. right. left. reflexivity.
    + split; [intros _; left; reflexivity|]. intros _. right.
      apply in_or_app. right. apply in_or_app. right. left. reflexivity.
    + split; [intros _; left; reflexivity|]. intros _. right.
      apply in_or_app. right. apply in_or_app. right. left. reflexivity.
  - assert (Pre : forall p,
              shell_binds_of p
                (if display_ok then []
                 else [shell_log_error
                         "Failed to convert gdk wayland display to waylandpp"]) = 0%nat).
    { intro p. destruct display_ok; reflexivity. }
    assert (Post : forall p,
              shell_binds_of p
                (if negb (is_some (sd_output d')) || negb (is_some (sd_shell d'))
                 then [shell_log_error "could not find output or shell modules"]
                 else []) = 0%nat).
    { intro p. destruct (negb (is_some (sd_output d')) || negb (is_some (sd_shell d')));
        reflexivity. }
    split; change (shell_log_debug "Other FD: " :: ?l) with ([shell_log_debug "Other FD: "] ++ l);
      rewrite !shell_binds_of_app, Pre, Post; simpl; rewrite Nat.add_0_r;
      assumption.
Qed.

End ShellStartup.

Lemma shell_startup_missing_globals_witness :
  desktop_shell_name <> output_name
  /\ In (shell_log_error "could not find output or shell modules")
        (snd (shell_startup desktop_shell_name output_name true nothing_bound
                [mkGlobal 7 output_name 3; mkGlobal 9 seat_name 5])).
Proof.
  assert (H1 : desktop_shell_name <> output_name) by names_differ.
  split; [exact H1|].
  apply (shell_startup_missing_globals desktop_shell_name output_name true
           [mkGlobal 7 output_name 3; mkGlobal 9 seat_name 5] H1).
  left. reflexivity.
Defined.

(** ** The notification server: the idle callbacks *)

Lemma filter_has_id_none (id : Z) (ns : list Notification) :
  filter (has_id id) (filter (fun m => negb (has_id id m)) ns) = [].
Proof.
  induction ns as [|m ns IH]; simpl; [reflexivity|].
  destruct (has_id id m) eqn:E; simpl; [exact IH|]. rewrite E. exact IH.
Qed.

Lemma has_id_refl (n : Notification) : has_id (n_id n) n = true.
Proof. unfold has_id. apply Z.eqb_refl. Qed.

Lemma in_ids_existsb (id : Z) (ns : list Notification) :
  existsb (has_id id) ns = true <-> In id (map n_id ns).
Proof.
  rewrite existsb_exists, in_map_iff. unfold has_id.
  split; intros (m & A & B); exists m.
  - apply Z.eqb_eq in B. tauto.
  - split; [tauto|]. apply Z.eqb_eq. tauto.
Qed.

Lemma NoDup_ids_filter (f : Notification -> bool) (ns : list Notification) :
  NoDup (map n_id ns) -> NoDup (map n_id (filter f ns)).
Proof.
  induction ns as [|m ns IH]; simpl; intro N; [constructor|].
  inversion N as [|? ? Hn Hr]; subst.
  destruct (f m); simpl; [|apply IH; exact Hr].
  constructor; [|apply IH; exact Hr].
  intro I. apply Hn. apply in_map_iff in I. destruct I as (k & E & Ik).
  apply filter_In in Ik. apply in_map_iff. exists k. tauto.
Qed.

(** X13.  When the callback queued by [Notify] has run, the new
    notification is the last one and the only one with its id: every
    notification that had the id is destroyed (one [NotificationClosed]
    each), the others stay in their order, and ids that were pairwise
    distinct stay so. *)
Theorem show_task_replaces (n : Notification) (s : Server) :
  let s' := run_idle (show_task n) s in
  filter (has_id (n_id n)) (notifications s') = [n]
  /\ (exists before, notifications s' = before ++ [n])
  /\ filter (fun m => negb (has_id (n_id n) m)) (notifications s')
     = filter (fun m => negb (has_id (n_id n) m)) (notifications s)
  /\ (NoDup (ids s) -> NoDup (ids s'))
  /\ emitted s' =
     emitted s ++ repeat (NotificationClosed (n_id n) 0)
                    (List.length (filter (has_id (n_id n)) (notifications s))).
Proof.
  cbv zeta. unfold run_idle, ids. simpl.
  split; [|split; [|split; [|split]]].
  - rewrite filter_app, filter_has_id_none. simpl. rewrite has_id_refl. reflexivity.
  - eexists. reflexivity.
  - rewrite filter_app. simpl. rewrite has_id_refl. simpl. rewrite app_nil_r.
    induction (notifications s) as [|m ns IH]; simpl; [reflexivity|].
    destruct (has_id (n_id n) m) eqn:E; simpl; [exact IH|]. rewrite E. simpl.
    rewrite IH. reflexivity.
  - intro N. rewrite map_app. simpl.
    assert (F := NoDup_ids_filter (fun m => negb (has_id (n_id n) m)) _ N).
    assert (Notin : ~ In (n_id n)
                      (map n_id (filter (fun m => negb (has_id (n_id n) m))
                                   (notifications s)))).
    { intro I. apply in_map_iff in I. destruct I as (k & E & Ik).
      apply filter_In in Ik. destruct Ik as [_ Ik].
      unfold has_id in Ik. rewrite E, Z.eqb_refl in Ik. discriminate. }
    clear N. induction (map n_id (filter _ (notifications s))) as [|a l IH]; simpl.
    + constructor; [intros []|constructor].
    + inversion F; subst. constructor.
      * intro I. apply in_app_or in I. destruct I as [I|[I|[]]]; [contradiction|].
        apply Notin. left. symmetry. exact I.
      * apply IH; [assumption|]. intro I. apply Notin. right. exact I.
  - f_equal. induction (notifications s) as [|m ns IH]; simpl; [reflexivity|].
    destruct (has_id (n_id n) m) eqn:E; simpl; [|exact IH].
    unfold has_id in E. apply Z.eqb_eq in E. rewrite E, IH. reflexivity.
Qed.

Lemma erase_first_absent (id : Z) (ns : list Notification) :
  existsb (has_id id) ns = false -> erase_first id ns = ns.
Proof.
  induction ns as [|m ns IH]; simpl; [reflexivity|].
  destruct (has_id id m); simpl; [discriminate|].
  intro H. rewrite IH by exact H. reflexivity.
Qed.

Lemma erase_first_length (id : Z) (ns : list Notification) :
  existsb (has_id id) ns = true ->
  S (List.length (erase_first id ns)) = List.length ns.
Proof.
  induction ns as [|m ns IH]; simpl; [discriminate|].
  destruct (has_id id m); simpl; [reflexivity|].
  intro H. rewrite IH by exact H. reflexivity.
Qed.

Lemma erase_first_unique (id : Z) (ns : list Notification) :
  NoDup (map n_id ns) ->
  erase_first id ns = filter (fun m => negb (has_id id m)) ns.
Proof.
  induction ns as [|m ns IH]; simpl; intro N; [reflexivity|].
  inversion N as [|? ? Hn Hr]; subst.
  destruct (has_id id m) eqn:E; simpl.
  - unfold has_id in E. apply Z.eqb_eq in E.
    symmetry.
    assert (A : forall k, In k ns -> negb (has_id id k) = true).
    { intros k Ik. unfold has_id. apply negb_true_iff. apply Z.eqb_neq.
      intro Ek. apply Hn. rewrite E, <- Ek. apply in_map. exact Ik. }
    clear -A. induction ns as [|k ns IH]; simpl; [reflexivity|].
    rewrite (A k) by (left; reflexivity). f_equal. apply IH.
    intros j Ij. apply A. right. exact Ij.
  - rewrite IH by exact Hr. reflexivity.
Qed.

(** X14.  [CloseNotification]'s callback does nothing for an id that no
    notification has; otherwise it destroys one notification with the id
    and emits one [NotificationClosed(id, 0)].  With pairwise distinct
    ids the id is gone afterwards, the other notifications are untouched,
    and closing again changes nothing. *)
Theorem close_task_removes (id : Z) (s : Server) :
  let s' := run_idle (CloseNotification id) s in
  (~ In id (ids s) -> s' = s)
  /\ (In id (ids s) ->
      emitted s' = emitted s ++ [NotificationClosed id 0]
      /\ S (List.length (notifications s')) = List.length (notifications s))
  /\ (NoDup (ids s) ->
      ~ In id (ids s')
      /\ notifications s' = filter (fun m => negb (has_id id m)) (notifications s)
      /\ run_idle (CloseNotification id) s' = s').
Proof.
  cbv zeta. unfold CloseNotification, run_idle, ids.
  destruct (existsb (has_id id) (notifications s)) eqn:E.
  - pose proof (proj1 (in_ids_existsb id (notifications s)) E) as I.
    split; [intro N; contradiction|]. split.
    + intros _. simpl. split; [reflexivity|]. apply erase_first_length. exact E.
    + intro N. simpl.
      rewrite (erase_first_unique id _ N).
      assert (Gone : existsb (has_id id)
                       (filter (fun m => negb (has_id id m)) (notifications s)) = false).
      { apply not_true_is_false. intro X. apply existsb_exists in X.
        destruct X as (k & Ik & Hk). apply filter_In in Ik.
        destruct Ik as [_ Ik]. rewrite Hk in Ik. discriminate. }
      split; [|split; [reflexivity|rewrite Gone; reflexivity]].
      intro X. apply in_ids_existsb in X. rewrite Gone in X. discriminate.
  - assert (NI : ~ In id (map n_id (notifications s))).
    { intro I. apply in_ids_existsb in I. rewrite E in I. discriminate. }
    split; [reflexivity|]. split; [intro I; contradiction|].
    intro N. rewrite E. split; [exact NI|]. split; [|reflexivity].
    rewrite <- (erase_first_unique id _ N). symmetry.
    apply erase_first_absent. exact E.
Qed.

(** ** The notification server: Notify *)

Section NotifyFacts.

Context {V : DBusVariant} {T : Toolkit} {U : UrgencyEnum}.

Local Open Scope string_scope.

Lemma Notify_task (s : Server) (app_name : string) (not_id_in : Z)
  (app_icon summary body : string) (actions : list string) (hints : Hints)
  (expire_timeout_in : Z) (t : IdleTask) :
  let r := Notify s app_name not_id_in app_icon summary body actions hints
             expire_timeout_in in
  reply_task r = Some t ->
  exists image,
    get_image hints app_icon = Returns image
    /\ t = show_task (mkNotification (reply_id r) summary body actions
                        (hint_urgency hints)
                        (effective_timeout (hint_urgency hints) expire_timeout_in)
                        image)
    /\ reply_failed r = false
    /\ notifications (reply_server r) = notifications s
    /\ emitted (reply_server r) = emitted s
    /\ reply_id r = (if (not_id_in =? 0)%Z then uint32 (_id s + 1) else not_id_in).
Proof.
  cbv zeta. unfold Notify.
  destruct (not_id_in =? 0)%Z; destruct (get_image hints app_icon) as [image|];
    simpl; intro H; try discriminate H; injection H as <-;
    exists image; repeat split; reflexivity.
Qed.

(** X15.  A notification shown by [Notify] and then closed through
    [CloseNotification] with the returned id leaves the server with the
    notifications it had before, less those that had that id; the last
    signal emitted is the [NotificationClosed] of the returned id. *)
Theorem Notify_then_close (s : Server) (app_name : string) (not_id_in : Z)
  (app_icon summary body : string) (actions : list string) (hints : Hints)
  (expire_timeout_in : Z) (t : IdleTask) :
  let r := Notify s app_name not_id_in app_icon summary body actions hints
             expire_timeout_in in
  reply_task r = Some t ->
  let shown := run_idle t (reply_server r) in
  let closed := run_idle (CloseNotification (reply_id r)) shown in
  In (reply_id r) (ids shown)
  /\ notifications closed
     = filter (fun m => negb (has_id (reply_id r) m)) (notifications s)
  /\ ~ In (reply_id r) (ids closed)
  /\ exists signals,
       emitted closed = (signals ++ [NotificationClosed (reply_id r) 0])%list.
Proof.
  intros r H shown closed.
  destruct (Notify_task s app_name not_id_in app_icon summary body actions hints
              expire_timeout_in t H) as (image & _ & Et & _ & Ns & _ & _).
  fold r in Et, Ns.
  set (n := mkNotification (reply_id r) summary body actions (hint_urgency hints)
              (effective_timeout (hint_urgency hints) expire_timeout_in) image) in *.
  assert (Sh : notifications shown
               = (filter (fun m => negb (has_id (reply_id r) m)) (notifications s)
                  ++ [n])%list).
  { unfold shown. rewrite Et. simpl. rewrite Ns. reflexivity. }
  assert (Ex : existsb (has_id (reply_id r)) (notifications shown) = true).
  { rewrite Sh, existsb_app. simpl.
    assert (X : has_id (reply_id r) n = true) by (unfold has_id; simpl; apply Z.eqb_refl).
    rewrite X. rewrite orb_true_r. reflexivity. }
  assert (Er : erase_first (reply_id r) (notifications shown)
               = filter (fun m => negb (has_id (reply_id r) m)) (notifications s)).
  { rewrite Sh.
    assert (X : has_id (reply_id r) n = true) by (unfold has_id; simpl; apply Z.eqb_refl).
    clear - X.
    induction (notifications s) as [|m ns IH]; simpl.
    - rewrite X. reflexivity.
    - destruct (has_id (reply_id r) m) eqn:E; simpl; [exact IH|].
      rewrite E, IH. reflexivity. }
  assert (Cl : notifications closed
               = filter (fun m => negb (has_id (reply_id r) m)) (notifications s)).
  { unfold closed, CloseNotification, run_idle. rewrite Ex. simpl. exact Er. }
  split; [apply in_ids_existsb; exact Ex|]. split; [exact Cl|]. split.
  - unfold ids. rewrite Cl. intro I. apply in_map_iff in I.
    destruct I as (k & E & Ik). apply filter_In in Ik. destruct Ik as [_ Ik].
    unfold has_id in Ik. rewrite E, Z.eqb_refl in Ik. discriminate.
  - unfold closed, CloseNotification, run_idle. rewrite Ex. simpl.
    eexists. reflexivity.
Qed.

Lemma count_absent (hints : Hints) (k : string) :
  hints k = None -> count hints k = false.
Proof. intro H. unfold count. rewrite H. reflexivity. Qed.

Lemma count_present (hints : Hints) (k : string) (v : Variant) :
  hints k = Some v -> count hints k = true.
Proof. intro H. unfold count. rewrite H. reflexivity. Qed.

Lemma get_image_deprecated (hints : Hints) (app_icon : string) :
  hints "image-data" = None ->
  hints "image_data" <> None
  \/ (hints "image-path" = None /\ hints "image_path" = None
      /\ app_icon = "" /\ hints "icon_data" <> None) ->
  get_image hints app_icon = Throws.
Proof.
  intros N D. unfold get_image, image_key.
  rewrite (count_absent hints "image-data" N).
  destruct D as [D|(P1 & P2 & A & D)].
  - destruct (hints "image_data") as [v|] eqn:E; [|congruence].
    rewrite (count_present hints "image_data" v E). simpl.
    unfold at_key. rewrite N. reflexivity.
  - subst app_icon. simpl.
    rewrite (count_absent hints "image-path" P1), (count_absent hints "image_path" P2).
    destruct (hints "image_data") as [v|] eqn:E.
    + rewrite (count_present hints "image_data" v E). simpl.
      unfold at_key. rewrite N. reflexivity.
    + rewrite (count_absent hints "image_data" E).
      destruct (hints "icon_data") as [w|] eqn:E'; [|congruence].
      rewrite (count_present hints "icon_data" w E'). simpl.
      unfold at_key. rewrite N. reflexivity.
Qed.

(** X16.  The deprecated "image_data" hint and the "icon_data" hint never
    yield an image: when either is the selected source, the image is
    still read from the "image-data" key, which is then missing, and the
    call fails.  [Notify] then reports an error, returns the id it was
    given (0 for a new notification), shows nothing - and has already
    advanced the id counter when the id given was 0. *)
Theorem Notify_fails_on_deprecated_image_hints
  (s : Server) (app_name : string) (not_id_in : Z)
  (app_icon summary body : string) (actions : list string) (hints : Hints)
  (expire_timeout_in : Z) :
  hints "image-data" = None ->
  hints "image_data" <> None
  \/ (hints "image-path" = None /\ hints "image_path" = None
      /\ app_icon = "" /\ hints "icon_data" <> None) ->
  let r := Notify s app_name not_id_in app_icon summary body actions hints
             expire_timeout_in in
  get_image hints app_icon = Throws
  /\ reply_failed r = true
  /\ reply_id r = not_id_in
  /\ reply_task r = None
  /\ notifications (reply_server r) = notifications s
  /\ (not_id_in = 0%Z -> _id (reply_server r) = uint32 (_id s + 1))
  /\ (not_id_in <> 0%Z -> _id (reply_server r) = _id s).
Proof.
  intros N D r.
  assert (G := get_image_deprecated hints app_icon N D).
  split; [exact G|]. unfold r, Notify. rewrite G.
  destruct (not_id_in =? 0)%Z eqn:E; simpl; repeat split;
    try reflexivity; intro X.
  - apply Z.eqb_eq in E. contradiction.
  - subst not_id_in. discriminate E.
Qed.

(** X18.  An image is flagged as an icon only when it was loaded from the
    [app_icon] path, which is used only when none of the four image hints
    is present. *)
Theorem icon_flag_only_for_app_icon (hints : Hints) (app_icon : string) (p : Pixbuf) :
  get_image hints app_icon = Returns (Some p, true) ->
  app_icon <> ""
  /\ hints "image-data" = None /\ hints "image_data" = None
  /\ hints "image-path" = None /\ hints "image_path" = None
  /\ exists path, p = create_from_file path
                  /\ strip_file_scheme app_icon = Returns path.
Proof.
  unfold get_image, image_key, count, at_key.
  destruct (hints "image-data") as [v1|] eqn:H1; simpl.
  { intro H. discriminate H. }
  destruct (hints "image_data") as [v2|] eqn:H2; simpl.
  { intro H. discriminate H. }
  destruct (hints "image-path") as [v3|] eqn:H3; simpl.
  { destruct (String.eqb (to_string v3) ""); simpl; [intro H; discriminate H|].
    destruct (strip_file_scheme (to_string v3)); [|intro H; discriminate H].
    destruct (file_error a); intro H; discriminate H. }
  destruct (hints "image_path") as [v4|] eqn:H4; simpl.
  { destruct (String.eqb (to_string v4) ""); simpl; [intro H; discriminate H|].
    destruct (strip_file_scheme (to_string v4)); [|intro H; discriminate H].
    destruct (file_error a); intro H; discriminate H. }
  destruct (String.eqb app_icon "") eqn:A; simpl.
  { destruct (hints "icon_data"); simpl; intro H; discriminate H. }
  rewrite A. simpl.
  destruct (strip_file_scheme app_icon) as [path|]; [|intro H; discriminate H].
  destruct (file_error path); intro H; [discriminate H|].
  injection H as <-. apply String.eqb_neq in A.
  repeat split; try assumption. exists path. split; reflexivity.
Qed.

Lemma effective_timeout_cases (u t : Z) :
  (0 <= t -> effective_timeout u t = t)%Z
  /\ (t < 0 -> u = Low -> effective_timeout u t = 5)%Z
  /\ (t < 0 -> u = Normal -> effective_timeout u t = 10)%Z
  /\ (t < 0 -> u = Critical -> effective_timeout u t = 0)%Z
  /\ (t < 0 -> u <> Low -> u <> Normal -> u <> Critical -> effective_timeout u t = t)%Z.
Proof.
  unfold effective_timeout.
  pose proof Low_Normal. pose proof Low_Critical. pose proof Normal_Critical.
  destruct (t <? 0)%Z eqn:Lt; [apply Z.ltb_lt in Lt | apply Z.ltb_ge in Lt].
  - repeat split; try lia; intros _.
    + intros ->. rewrite Z.eqb_refl. reflexivity.
    + intros ->. rewrite Z.eqb_refl.
      destruct (Normal =? Low)%Z eqn:E; [apply Z.eqb_eq in E; congruence | reflexivity].
    + intros ->. rewrite Z.eqb_refl.
      destruct (Critical =? Low)%Z eqn:E; [apply Z.eqb_eq in E; congruence |].
      destruct (Critical =? Normal)%Z eqn:E'; [apply Z.eqb_eq in E'; congruence |].
      reflexivity.
    + intros A B C. apply Z.eqb_neq in A, B, C. rewrite A, B, C. reflexivity.
  - repeat split; try reflexivity; lia.
Qed.

(** X12.  The notification [Notify] queues has the urgency read from the
    "urgency" hint - its value as a byte for a byte, uint32 or int32 hint
    (reduced modulo 256), normal when the hint is missing or of another
    type - and keeps a timeout that is not negative as given.  A negative
    timeout becomes 5, 10 or 0 when that urgency is low, normal or
    critical, and is left negative when it is none of the three. *)
Theorem Notify_timeout (s : Server) (app_name : string) (not_id_in : Z)
  (app_icon summary body : string) (actions : list string) (hints : Hints)
  (expire_timeout_in : Z) (n : Notification) :
  reply_task (Notify s app_name not_id_in app_icon summary body actions hints
                expire_timeout_in) = Some (show_task n) ->
  let read :=
    match hints "urgency" with
    | None => Normal
    | Some v =>
        if Ascii.eqb (variant_type v) type_byte then (to_uint8 v mod 256)%Z
        else if Ascii.eqb (variant_type v) type_uint32 then (to_uint32 v mod 256)%Z
        else if Ascii.eqb (variant_type v) type_int32 then (to_int32 v mod 256)%Z
        else Normal
    end in
  n_urgency n = read
  /\ ((0 <= expire_timeout_in)%Z -> n_expire_timeout n = expire_timeout_in)
  /\ ((expire_timeout_in < 0)%Z ->
      (read = Low -> n_expire_timeout n = 5%Z)
      /\ (read = Normal -> n_expire_timeout n = 10%Z)
      /\ (read = Critical -> n_expire_timeout n = 0%Z)
      /\ (read <> Low -> read <> Normal -> read <> Critical ->
          n_expire_timeout n = expire_timeout_in)).
Proof.
  intros H read.
  destruct (Notify_task s app_name not_id_in app_icon summary body actions hints
              expire_timeout_in _ H) as (image & _ & Et & _).
  injection Et as ->. simpl.
  assert (R : hint_urgency hints = read).
  { unfold hint_urgency, count, read, uint8.
    destruct (hints "urgency"); reflexivity. }
  rewrite R.
  destruct (effective_timeout_cases read expire_timeout_in)
    as (C0 & C1 & C2 & C3 & C4).
  split; [reflexivity|]. split; [exact C0|]. intro Lt.
  split; [apply C1; exact Lt|]. split; [apply C2; exact Lt|].
  split; [apply C3; exact Lt | apply C4; exact Lt].
Qed.

Lemma filter_all {A} (f : A -> bool) (l : list A) :
  (forall a, In a l -> f a = true) -> filter f l = l.
Proof.
  induction l as [|b l IH]; simpl; intro H; [reflexivity|].
  rewrite (H b) by (left; reflexivity). f_equal. apply IH.
  intros a I. apply H. right. exact I.
Qed.

(** X19.  For a new notification (id 0 given) [Notify] hands out the
    counter's next value, which is not 0 as long as the counter has not
    reached its last 32-bit value; when no notification on screen has an
    id above the counter, the new id is not in use, the notification is
    added after the existing ones, and again no id is above the
    counter. *)
Theorem Notify_fresh_id (s : Server) (app_name : string)
  (app_icon summary body : string) (actions : list string) (hints : Hints)
  (expire_timeout_in : Z) (t : IdleTask) :
  (0 <= _id s < 4294967295)%Z ->
  let r := Notify s app_name 0 app_icon summary body actions hints
             expire_timeout_in in
  reply_task r = Some t ->
  let shown := run_idle t (reply_server r) in
  reply_id r = (_id s + 1)%Z
  /\ reply_id r <> 0%Z
  /\ _id shown = reply_id r
  /\ (Forall (fun i => (i <= _id s)%Z) (ids s) ->
      ~ In (reply_id r) (ids s)
      /\ (exists n, t = show_task n /\ n_id n = reply_id r
                    /\ notifications shown = (notifications s ++ [n])%list)
      /\ Forall (fun i => (i <= _id shown)%Z) (ids shown)).
Proof.
  intros B r H shown.
  destruct (Notify_task s app_name 0 app_icon summary body actions hints
              expire_timeout_in t H) as (image & G & Et & _ & Ns & _ & Ei).
  fold r in Et, Ns, Ei. simpl in Ei.
  assert (W : uint32 (_id s + 1) = (_id s + 1)%Z).
  { unfold uint32. apply Z.mod_small. lia. }
  rewrite W in Ei.
  assert (Is : _id (reply_server r) = reply_id r).
  { rewrite Ei. unfold r, Notify. rewrite G. simpl. exact W. }
  assert (Ish : _id shown = reply_id r).
  { unfold shown. rewrite Et. simpl. exact Is. }
  split; [exact Ei|]. split; [lia|]. split; [exact Ish|].
  intro F.
  assert (NI : ~ In (reply_id r) (ids s)).
  { intro I. rewrite Forall_forall in F. specialize (F _ I). lia. }
  assert (Sh : notifications shown
               = (notifications s
                  ++ [mkNotification (reply_id r) summary body actions
                        (hint_urgency hints)
                        (effective_timeout (hint_urgency hints) expire_timeout_in)
                        image])%list).
  { unfold shown. rewrite Et. simpl. rewrite Ns. f_equal.
    apply filter_all. intros m Im. apply negb_true_iff.
    unfold has_id. apply Z.eqb_neq. intro E. apply NI.
    unfold ids. rewrite <- E. apply in_map. exact Im. }
  split; [exact NI|]. split.
  - eexists. split; [exact Et|]. split; [reflexivity | exact Sh].
  - unfold ids. rewrite Sh, map_app. apply Forall_app. split.
    + rewrite Forall_forall in F |- *. intros i I. specialize (F i I). lia.
    + constructor; [simpl; lia | constructor].
Qed.

End NotifyFacts.

(** ** Notification::Notification: the action buttons *)

Lemma action_loop_spec (fuel : nat) (pre rest : list string) :
  (List.length rest < 2 * fuel)%nat ->
  action_loop fuel (pre ++ rest) (List.length pre) (List.length pre + 1)
  = two_by_two rest.
Proof.
  revert pre rest. induction fuel as [|fuel IH]; intros pre rest L; [lia|].
  simpl. rewrite length_app.
  destruct rest as [|a [|b rest]]; simpl in *.
  - assert (E : (List.length pre =? List.length pre + 0)%nat = true)
      by (apply Nat.eqb_eq; lia).
    rewrite E, andb_false_r. reflexivity.
  - assert (E : (List.length pre + 1 =? List.length pre + 1)%nat = true)
      by (apply Nat.eqb_refl).
    rewrite E. reflexivity.
  - assert (E1 : (List.length pre + 1 =? List.length pre + S (S (List.length rest)))%nat
                 = false) by (apply Nat.eqb_neq; lia).
    assert (E2 : (List.length pre =? List.length pre + S (S (List.length rest)))%nat
                 = false) by (apply Nat.eqb_neq; lia).
    rewrite E1, E2. simpl.
    assert (N1 : nth (List.length pre) (pre ++ a :: b :: rest) ""%string = a).
    { rewrite app_nth2 by lia. rewrite Nat.sub_diag. reflexivity. }
    assert (N2 : nth (List.length pre + 1) (pre ++ a :: b :: rest) ""%string = b).
    { rewrite app_nth2 by lia.
      replace (List.length pre + 1 - List.length pre)%nat with 1%nat by lia.
      reflexivity. }
    rewrite N1, N2. f_equal.
    specialize (IH (pre ++ [a; b]) rest).
    rewrite length_app in IH. simpl in IH.
    rewrite <- app_assoc in IH. simpl in IH.
    replace (List.length pre + 2 + 1)%nat with (List.length pre + 1 + 2)%nat in IH by lia.
    apply IH. lia.
Qed.

Lemma two_by_two_length (l : list string) :
  List.length (two_by_two l) = Nat.div2 (List.length l).
Proof.
  assert (H : forall n l, (List.length l <= n)%nat ->
                          List.length (two_by_two l) = Nat.div2 (List.length l)).
  { intro n. induction n as [|n IH]; intros k Lk.
    - destruct k; [reflexivity | simpl in Lk; lia].
    - destruct k as [|a [|b k]]; try reflexivity.
      simpl. f_equal. apply IH. simpl in Lk. lia. }
  apply (H (List.length l)). lia.
Qed.

(** X17.  The constructor's loop over the action list ends by itself and
    makes one button for each complete (action key, label) pair, in
    order: half as many buttons as list entries, rounded down, so an
    empty list or a list of one entry gives no button and an unpaired
    last entry is dropped. *)
Theorem action_buttons_pairs (actions : list string) :
  action_buttons actions = two_by_two actions
  /\ List.length (action_buttons actions) = Nat.div2 (List.length actions)
  /\ (forall fuel, (List.length actions < 2 * fuel)%nat ->
                   action_loop fuel actions 0 1 = action_buttons actions)
  /\ (forall key label, In (key, label) (action_buttons actions) ->
                        In key actions /\ In label actions).
Proof.
  assert (E : forall fuel, (List.length actions < 2 * fuel)%nat ->
                           action_loop fuel actions 0 1 = two_by_two actions).
  { intros fuel L. apply (action_loop_spec fuel [] actions L). }
  assert (B : action_buttons actions = two_by_two actions).
  { unfold action_buttons. apply E. lia. }
  split; [exact B|]. split; [rewrite B; apply two_by_two_length|].
  split; [intros fuel L; rewrite B; apply E; exact L|].
  rewrite B. clear.
  assert (H : forall n l, (List.length l <= n)%nat ->
              forall key label, In (key, label) (two_by_two l) ->
                                In key l /\ In label l).
  { intro n. induction n as [|n IH]; intros l Ll key label I.
    - destruct l; [destruct I | simpl in Ll; lia].
    - destruct l as [|a [|b l]]; [destruct I | destruct I |].
      destruct I as [I|I].
      + injection I as <- <-. split; [left | right; left]; reflexivity.
      + simpl in Ll. destruct (IH l ltac:(lia) key label I) as [K L].
        split; right; right; assumption. }
  intros key label I. apply (H (List.length actions) actions (le_n _) key label I).
Qed.

(** ** Concrete calls of the notification server *)

Lemma Notify_then_close_witness :
  let r := sample_Notify two_notes "app" 2 "" "again" "" [] no_hints (-1) in
  let t := show_task (mkNotification 2 "again" "" [] 1 10 (None, false)) in
  reply_task r = Some t
  /\ notifications
       (run_idle (CloseNotification (reply_id r)) (run_idle t (reply_server r)))
     = [note 1 "first"].
Proof.
  cbv zeta.
  assert (H : reply_task (sample_Notify two_notes "app" 2 "" "again" "" [] no_hints (-1))
              = Some (show_task (mkNotification 2 "again" "" [] 1 10 (None, false))))
    by reflexivity.
  split; [exact H|].
  destruct (@Notify_then_close sample_variant sample_toolkit protocol_urgency
              two_notes "app" 2 "" "again" "" [] no_hints (-1) _ H) as (_ & C & _).
  exact C.
Defined.

Lemma Notify_fails_on_deprecated_image_hints_witness :
  (deprecated_image_hint "image-data"%string = None
   /\ deprecated_image_hint "image_data"%string <> None)
  /\ reply_id (sample_Notify two_notes "app" 0 "" "picture" "" []
                 deprecated_image_hint (-1)) = 0%Z
  /\ _id (reply_server (sample_Notify two_notes "app" 0 "" "picture" "" []
                          deprecated_image_hint (-1))) = 3%Z.
Proof.
  assert (H1 : deprecated_image_hint "image-data"%string = None) by reflexivity.
  assert (H2 : deprecated_image_hint "image_data"%string <> None) by discriminate.
  split; [split; assumption|].
  destruct (@Notify_fails_on_deprecated_image_hints sample_variant sample_toolkit
              protocol_urgency two_notes "app" 0 "" "picture" "" []
              deprecated_image_hint (-1) H1 (or_introl H2))
    as (_ & _ & I & _ & _ & C & _).
  split; [exact I | exact (C eq_refl)].
Defined.

Lemma icon_flag_only_for_app_icon_witness :
  @get_image sample_variant sample_toolkit no_hints "file:///usr/share/icons/mail.png"
  = Returns (Some (create_from_file "/usr/share/icons/mail.png"), true)
  /\ no_hints "image-path"%string = None.
Proof.
  assert (H : @get_image sample_variant sample_toolkit no_hints
                "file:///usr/share/icons/mail.png"
              = Returns (Some (create_from_file "/usr/share/icons/mail.png"), true))
    by reflexivity.
  split; [exact H|].
  destruct (@icon_flag_only_for_app_icon sample_variant sample_toolkit no_hints
              "file:///usr/share/icons/mail.png" _ H) as (_ & _ & _ & P & _).
  exact P.
Defined.

(** A uint32 urgency hint of 258 is read as the byte 2, critical: the
    negative timeout becomes 0. *)
Lemma Notify_timeout_witness :
  let critical : @Hints sample_variant :=
    fun k => if String.eqb k "urgency" then Some (sv_uint32 258) else None in
  let n := mkNotification 3 "disk full" "" [] 2 0 (None, false) in
  reply_task (sample_Notify two_notes "app" 0 "" "disk full" "" [] critical (-1))
  = Some (show_task n)
  /\ n_urgency n = 2%Z
  /\ n_expire_timeout n = 0%Z.
Proof.
  cbv zeta.
  assert (H : reply_task
                (sample_Notify two_notes "app" 0 "" "disk full" "" []
                   (fun k => if String.eqb k "urgency" then Some (sv_uint32 258) else None)
                   (-1))
              = Some (show_task (mkNotification 3 "disk full" "" [] 2 0 (None, false))))
    by reflexivity.
  split; [exact H|].
  destruct (@Notify_timeout sample_variant sample_toolkit protocol_urgency
              two_notes "app" 0 "" "disk full" "" [] _ (-1) _ H) as (U & _ & N).
  split; [exact U|].
  destruct (N ltac:(reflexivity)) as (_ & _ & C & _).
  apply C. reflexivity.
Defined.

Lemma Notify_fresh_id_witness :
  (0 <= _id two_notes < 4294967295)%Z
  /\ reply_id (sample_Notify two_notes "app" 0 "" "third" "" [] no_hints 4) = 3%Z.
Proof.
  assert (H1 : (0 <= _id two_notes < 4294967295)%Z) by (split; [discriminate | reflexivity]).
  assert (H2 : reply_task (sample_Notify two_notes "app" 0 "" "third" "" [] no_hints 4)
               = Some (show_task (mkNotification 3 "third" "" [] 1 4 (None, false))))
    by reflexivity.
  split; [exact H1|].
  destruct (@Notify_fresh_id sample_variant sample_toolkit protocol_urgency
              two_notes "app" "" "third" "" [] no_hints 4 _ H1 H2) as (I & _).
  exact I.
Defined.
